(** * pdfs_data_extraction: field extraction from office-memo PDFs

    A shallow embedding of [main.py]: the [PDFExtractor] class (text
    extraction wrapper, regex field rules, annex-to-row expansion, directory
    driver), [verify_environment_variables] and the module-level start-up
    sequence, followed by the properties of the specification.

    Characters.  A Python [str] is a sequence of code points.  The model
    uses the 8-bit [ascii] type read as the code points U+0000..U+00FF, and
    the character classes below are CPython's Unicode tables restricted to
    that range. *)

From Stdlib Require Import Ascii String.
From Stdlib Require Import List Bool Arith NArith Lia.
Import ListNotations.

Set Implicit Arguments.

(* ================================================================== *)
(** ** Characters and Python string methods                           *)
(* ================================================================== *)

Definition text := list ascii.

(** Python string literal. *)
Definition str (s : string) : text := list_ascii_of_string s.

Definition code (a : ascii) : N := N_of_ascii a.

Definition between (lo hi : N) (a : ascii) : bool :=
  (N.leb lo (code a) && N.leb (code a) hi)%bool.

Definition is_code (n : N) (a : ascii) : bool := N.eqb (code a) n.

(** [str.isspace] and the regex class [\s]. *)
Definition isspace (a : ascii) : bool :=
  between 9 13 a || between 28 32 a || is_code 133 a || is_code 160 a.

(** The regex class [\d]. *)
Definition isdigit (a : ascii) : bool := between 48 57 a.

(** ASCII letters. *)
Definition isletter (a : ascii) : bool := between 65 90 a || between 97 122 a.

(** The regex class [\w]: alphanumerics in the Unicode sense, and [_]. *)
Definition isword (a : ascii) : bool :=
  isdigit a || isletter a || is_code 95 a
  || is_code 170 a || between 178 179 a || is_code 181 a
  || between 185 186 a || between 188 190 a
  || between 192 214 a || between 216 246 a || between 248 255 a.

Definition newline : ascii := ascii_of_N 10.

Definition isnewline (a : ascii) : bool := Ascii.eqb a newline.

(** [str.lower], one code point at a time. *)
Definition lower_char (a : ascii) : ascii :=
  if between 65 90 a || between 192 214 a || between 216 222 a
  then ascii_of_N (code a + 32) else a.

Definition lower (s : text) : text := map lower_char s.

Fixpoint text_eqb (s t : text) : bool :=
  match s, t with
  | [], [] => true
  | a :: s', b :: t' => Ascii.eqb a b && text_eqb s' t'
  | _, _ => false
  end.

(** [t.startswith(p)]. *)
Fixpoint startswith (p t : text) : bool :=
  match p, t with
  | [], _ => true
  | a :: p', b :: t' => Ascii.eqb a b && startswith p' t'
  | _ :: _, [] => false
  end.

(** [t.endswith(p)]. *)
Definition endswith (p t : text) : bool := startswith (rev p) (rev t).

Fixpoint lstrip (s : text) : text :=
  match s with
  | a :: s' => if isspace a then lstrip s' else s
  | [] => []
  end.

Definition rstrip (s : text) : text := rev (lstrip (rev s)).

(** [s.strip()]. *)
Definition strip (s : text) : text := rstrip (lstrip s).

(** [s.split(sep)] for a non-empty separator: the pieces between the
    leftmost non-overlapping occurrences of [sep].  [skip] counts the
    characters of an occurrence still to be passed over, [piece] holds the
    current piece, last character first. *)
Fixpoint split_from (sep : text) (skip : nat) (piece s : text) : list text :=
  match skip with
  | S n =>
      match s with
      | [] => [rev piece]
      | _ :: s' => split_from sep n piece s'
      end
  | O =>
      match s with
      | [] => [rev piece]
      | a :: s' =>
          if startswith sep s
          then rev piece :: split_from sep (length sep - 1) [] s'
          else split_from sep 0 (a :: piece) s'
      end
  end.

Definition split (sep s : text) : list text := split_from sep 0 [] s.

(** [sep.join(l)]. *)
Fixpoint join (sep : text) (l : list text) : text :=
  match l with
  | [] => []
  | [x] => x
  | x :: l' => x ++ sep ++ join sep l'
  end.

(* ================================================================== *)
(** ** Exceptions                                                     *)
(* ================================================================== *)

Inductive exn : Type :=
| KeyError (key : text)
| IndexError
| AttributeError
| NotADirectoryError
| FileNotFoundError
| EnvError (var : text)
| EnvironmentError (msg : text).

Inductive result (A : Type) : Type :=
| Ok (a : A)
| Raise (e : exn).

Arguments Ok {A} a.
Arguments Raise {A} e.

Definition bind {A B : Type} (m : result A) (f : A -> result B) : result B :=
  match m with
  | Ok a => f a
  | Raise e => Raise e
  end.

Notation "x <- m ;; k" := (bind m (fun x => k))
  (at level 61, m at next level, right associativity).

(* ================================================================== *)
(** ** The [re] module: a backtracking matcher                        *)
(* ================================================================== *)

(** The patterns of [main.py] use literals, the classes [\s], [\d], [\w]
    and [.] under the quantifiers [*], [+], [+?], [*?], [{m}], [{m,n}],
    alternation, one capturing group, and the anchors [^] and [$].  The
    syntax tree has exactly these; a non-capturing group [(?:r)] is [r]. *)

Inductive cset : Type := Space | Digit | Word | Dot.

Inductive regex : Type :=
| Str (s : text)
| Rep (c : cset) (lo : nat) (hi : option nat) (greedy : bool)
| Cat (r1 r2 : regex)
| Alt (r1 r2 : regex)
| Group (r : regex)
| Bol
| Eol.

Record flags : Type := Flags { DOTALL : bool; MULTILINE : bool }.

Definition no_flags : flags := Flags false false.
Definition re_DOTALL : flags := Flags true false.
Definition re_MULTILINE : flags := Flags false true.

(** A position in the subject string: the characters already passed (last
    one first), those ahead, and the text of group 1 when it is set. *)
Record cursor : Type := Cursor {
  seen : text;
  rest : text;
  group1 : option text
}.

Definition in_cset (fl : flags) (c : cset) (a : ascii) : bool :=
  match c with
  | Space => isspace a
  | Digit => isdigit a
  | Word => isword a
  | Dot => DOTALL fl || negb (isnewline a)
  end.

(** [^]: start of the string, and with MULTILINE also after a newline. *)
Definition at_bol (fl : flags) (c : cursor) : bool :=
  match seen c with
  | [] => true
  | a :: _ => MULTILINE fl && isnewline a
  end.

(** [$]: end of the string or before a newline that ends the string, and
    with MULTILINE before any newline. *)
Definition at_eol (fl : flags) (c : cursor) : bool :=
  match rest c with
  | [] => true
  | a :: r => isnewline a && (MULTILINE fl || match r with [] => true | _ => false end)
  end.

(** The text between two positions of one string. *)
Definition span (c c' : cursor) : text :=
  firstn (length (rest c) - length (rest c')) (rest c).

Definition capture (c c' : cursor) : cursor :=
  Cursor (seen c') (rest c') (Some (span c c')).

Fixpoint eat (s : text) (c : cursor) : option cursor :=
  match s with
  | [] => Some c
  | a :: s' =>
      match rest c with
      | b :: r =>
          if Ascii.eqb a b then eat s' (Cursor (b :: seen c) r (group1 c))
          else None
      | [] => None
      end
  end.

Definition hi_zero (hi : option nat) : bool :=
  match hi with Some O => true | _ => false end.

Section Matcher.

Variable fl : flags.
Variable A : Type.

(** A quantified class.  Greedy: one more character is tried before the
    continuation; lazy: the continuation is tried first. *)
Fixpoint rep (p : ascii -> bool) (greedy : bool) (lo : nat) (hi : option nat)
    (k : cursor -> option A) (sn rs : text) (g : option text) {struct rs}
    : option A :=
  let more :=
    if hi_zero hi then None
    else match rs with
         | a :: rs' =>
             if p a
             then rep p greedy (pred lo) (option_map pred hi) k (a :: sn) rs' g
             else None
         | [] => None
         end in
  match lo with
  | S _ => more
  | O =>
      if greedy
      then match more with
           | Some x => Some x
           | None => k (Cursor sn rs g)
           end
      else match k (Cursor sn rs g) with
           | Some x => Some x
           | None => more
           end
  end.

(** [mtch r k c]: match [r] at [c], then the continuation [k]; the first
    success in backtracking order. *)
Fixpoint mtch (r : regex) (k : cursor -> option A) (c : cursor) : option A :=
  match r with
  | Str s =>
      match eat s c with
      | Some c' => k c'
      | None => None
      end
  | Rep cs lo hi greedy =>
      rep (in_cset fl cs) greedy lo hi k (seen c) (rest c) (group1 c)
  | Cat r1 r2 => mtch r1 (mtch r2 k) c
  | Alt r1 r2 =>
      match mtch r1 k c with
      | Some x => Some x
      | None => mtch r2 k c
      end
  | Group r1 => mtch r1 (fun c' => k (capture c c')) c
  | Bol => if at_bol fl c then k c else None
  | Eol => if at_eol fl c then k c else None
  end.

End Matcher.

(** A match object: where the match starts and where it ends. *)
Record match_obj : Type := Match { m_start : cursor; m_end : cursor }.

(** [m.group(0)]. *)
Definition group0 (m : match_obj) : text := span (m_start m) (m_end m).

(** [m.group(1)]: [None] when the group took no part in the match. *)
Definition group (m : match_obj) : option text := group1 (m_end m).

Definition match_at (fl : flags) (r : regex) (sn rs : text) : option match_obj :=
  let c := Cursor sn rs None in
  match mtch fl r (fun c' => Some c') c with
  | Some c' => Some (Match c c')
  | None => None
  end.

Fixpoint search_from (fl : flags) (r : regex) (sn rs : text) : option match_obj :=
  match match_at fl r sn rs with
  | Some m => Some m
  | None =>
      match rs with
      | [] => None
      | a :: rs' => search_from fl r (a :: sn) rs'
      end
  end.

(** [re.search(pattern, text, flags)]. *)
Definition re_search (r : regex) (t : text) (fl : flags) : option match_obj :=
  search_from fl r [] t.

Fixpoint ngroups (r : regex) : nat :=
  match r with
  | Cat r1 r2 | Alt r1 r2 => ngroups r1 + ngroups r2
  | Group r1 => S (ngroups r1)
  | _ => 0
  end.

(** What [re.findall] reports for one match: the whole match when the
    pattern has no group; with one group its text, empty when unset. *)
Definition findall_item (r : regex) (m : match_obj) : text :=
  match ngroups r with
  | O => group0 m
  | S _ => match group m with Some g => g | None => [] end
  end.

(** [findall_from]: scan left to right; after a match the scan resumes where
    the match ended ([skip] counts the characters of the match still to be
    passed over), and after an empty match one character further on. *)
Fixpoint findall_from (fl : flags) (r : regex) (skip : nat) (sn rs : text)
    : list text :=
  match skip with
  | S n =>
      match rs with
      | [] => []
      | a :: rs' => findall_from fl r n (a :: sn) rs'
      end
  | O =>
      match match_at fl r sn rs with
      | Some m =>
          findall_item r m ::
          match rs with
          | [] => []
          | a :: rs' => findall_from fl r (length (group0 m) - 1) (a :: sn) rs'
          end
      | None =>
          match rs with
          | [] => []
          | a :: rs' => findall_from fl r 0 (a :: sn) rs'
          end
      end
  end.

(** [re.findall(pattern, text, flags)]. *)
Definition re_findall (r : regex) (t : text) (fl : flags) : list text :=
  findall_from fl r 0 [] t.

(* ================================================================== *)
(** ** The [re] module: pattern syntax                                *)
(* ================================================================== *)

(** [re.compile] for the syntax that the patterns of [main.py] use.  A
    pattern is read into a list of items, literal characters and
    sub-patterns; runs of literals become one [Str].  A quantifier may only
    follow a class. *)
Inductive item : Type :=
| Lit (a : ascii)
| Sub (r : regex).

Fixpoint read_nat (acc : nat) (s : text) : nat * text :=
  match s with
  | a :: s' =>
      if isdigit a then read_nat (10 * acc + (nat_of_ascii a - 48)) s'
      else (acc, s)
  | [] => (acc, s)
  end.

(** [*], [+], [?], [{m}], [{m,}], [{m,n}]: the bounds, and what follows. *)
Definition read_quantifier (s : text) : option (nat * option nat * text) :=
  match s with
  | "*"%char :: s' => Some (0, None, s')
  | "+"%char :: s' => Some (1, None, s')
  | "?"%char :: s' => Some (0, Some 1, s')
  | "{"%char :: s' =>
      let (m, s1) := read_nat 0 s' in
      match s1 with
      | "}"%char :: s2 => Some (m, Some m, s2)
      | ","%char :: "}"%char :: s2 => Some (m, None, s2)
      | ","%char :: s2 =>
          let (n, s3) := read_nat 0 s2 in
          match s3 with
          | "}"%char :: s4 => Some (m, Some n, s4)
          | _ => None
          end
      | _ => None
      end
  | _ => None
  end.

(** A class with the quantifier that follows it; a [?] after the
    quantifier makes it lazy. *)
Definition quantified (c : cset) (s : text) : regex * text :=
  match read_quantifier s with
  | Some (lo, hi, s') =>
      match s' with
      | "?"%char :: s'' => (Rep c lo hi false, s'')
      | _ => (Rep c lo hi true, s')
      end
  | None => (Rep c 1 (Some 1) true, s)
  end.

(** An item in front of the pattern made of the items after it. *)
Definition prepend (it : item) (after : option regex) : regex :=
  match it, after with
  | Lit a, None => Str [a]
  | Lit a, Some (Str s) => Str (a :: s)
  | Lit a, Some (Cat (Str s) r) => Cat (Str (a :: s)) r
  | Lit a, Some r => Cat (Str [a]) r
  | Sub r0, None => r0
  | Sub r0, Some r => Cat r0 r
  end.

Definition sequence (items : list item) : regex :=
  match fold_right (fun it after => Some (prepend it after)) None items with
  | Some r => r
  | None => Str []
  end.

Definition add_item (it : item) (more : option (list item * text))
    : option (list item * text) :=
  match more with
  | Some (items, s) => Some (it :: items, s)
  | None => None
  end.

Fixpoint parse_alternatives (fuel : nat) (s : text) : option (regex * text) :=
  match fuel with
  | O => None
  | S fuel' =>
      match parse_items fuel' s with
      | Some (items, "|"%char :: s') =>
          match parse_alternatives fuel' s' with
          | Some (r, s'') => Some (Alt (sequence items) r, s'')
          | None => None
          end
      | Some (items, s') => Some (sequence items, s')
      | None => None
      end
  end
with parse_items (fuel : nat) (s : text) : option (list item * text) :=
  match fuel with
  | O => None
  | S fuel' =>
      match s with
      | [] => Some ([], [])
      | ")"%char :: _ => Some ([], s)
      | "|"%char :: _ => Some ([], s)
      | "("%char :: "?"%char :: ":"%char :: s' =>
          match parse_alternatives fuel' s' with
          | Some (r, ")"%char :: s'') => add_item (Sub r) (parse_items fuel' s'')
          | _ => None
          end
      | "("%char :: s' =>
          match parse_alternatives fuel' s' with
          | Some (r, ")"%char :: s'') =>
              add_item (Sub (Group r)) (parse_items fuel' s'')
          | _ => None
          end
      | "\"%char :: c :: s' =>
          match c with
          | "s"%char =>
              let (r, s'') := quantified Space s' in
              add_item (Sub r) (parse_items fuel' s'')
          | "d"%char =>
              let (r, s'') := quantified Digit s' in
              add_item (Sub r) (parse_items fuel' s'')
          | "w"%char =>
              let (r, s'') := quantified Word s' in
              add_item (Sub r) (parse_items fuel' s'')
          | "n"%char => add_item (Lit newline) (parse_items fuel' s')
          | _ => if isword c then None else add_item (Lit c) (parse_items fuel' s')
          end
      | "."%char :: s' =>
          let (r, s'') := quantified Dot s' in
          add_item (Sub r) (parse_items fuel' s'')
      | "^"%char :: s' => add_item (Sub Bol) (parse_items fuel' s')
      | "$"%char :: s' => add_item (Sub Eol) (parse_items fuel' s')
      | "*"%char :: _ => None
      | "+"%char :: _ => None
      | "?"%char :: _ => None
      | "{"%char :: _ => None
      | "["%char :: _ => None
      | "\"%char :: [] => None
      | a :: s' => add_item (Lit a) (parse_items fuel' s')
      end
  end.

(** [re.compile(pattern)] for a raw string [r"..."]; [None] for syntax
    outside the fragment. *)
Definition re_compile (pattern : string) : option regex :=
  let s := list_ascii_of_string pattern in
  match parse_alternatives (2 * length s + 2) s with
  | Some (r, []) => Some r
  | _ => None
  end.

(* ================================================================== *)
(** ** The patterns of [process_pdf]                                  *)
(* ================================================================== *)

Notation "r1 +++ r2" := (Cat r1 r2) (at level 60, right associativity).

Definition nl : text := [newline].

(** [r"(?:Oficio|Memorando) Nro\.\s*(.+?)\n"] *)
Definition name_pattern : regex :=
  Alt (Str (str "Oficio")) (Str (str "Memorando")) +++ Str (str " Nro.") +++
  Rep Space 0 None true +++ Group (Rep Dot 1 None false) +++ Str nl.

(** [r"(\d{1,2}\s+de\s+\w+\s+de\s+\d{4})"] *)
Definition date_pattern : regex :=
  Group (Rep Digit 1 (Some 2) true +++ Rep Space 1 None true +++
         Str (str "de") +++ Rep Space 1 None true +++
         Rep Word 1 None true +++ Rep Space 1 None true +++
         Str (str "de") +++ Rep Space 1 None true +++
         Rep Digit 4 (Some 4) true).

(** [r"\d+|\w+"] *)
Definition date_parts_pattern : regex :=
  Alt (Rep Digit 1 None true) (Rep Word 1 None true).

(** [r"(?:Asunto:|ASUNTO:)\s*(.+?)\n"] *)
Definition subject_pattern : regex :=
  Alt (Str (str "Asunto:")) (Str (str "ASUNTO:")) +++
  Rep Space 0 None true +++ Group (Rep Dot 1 None false) +++ Str nl.

(** [r"Referencias:\s*(.*?)(?:\n|$)"] *)
Definition references_pattern : regex :=
  Str (str "Referencias:") +++ Rep Space 0 None true +++
  Group (Rep Dot 0 None false) +++ Alt (Str nl) Eol.

(** [r"Anexos:\s*(.*?)(?:\n\n|$)"] *)
Definition annexes_section_pattern : regex :=
  Str (str "Anexos:") +++ Rep Space 0 None true +++
  Group (Rep Dot 0 None false) +++ Alt (Str (nl ++ nl)) Eol.

(** [r"^-\s*(.+)$"] *)
Definition annex_pattern : regex :=
  Bol +++ Str (str "-") +++ Rep Space 0 None true +++
  Group (Rep Dot 1 None true) +++ Eol.

(* ================================================================== *)
(** ** [class PDFExtractor]                                           *)
(* ================================================================== *)

(** What [PdfReader(pdf_path)] finds at a path: a file it cannot read, a
    file with pages, each of which [extract_text] turns into text or fails
    on, or a directory. *)
Inductive pdf : Type :=
| Unreadable
| Pages (pages : list (option text)).

#[warnings="-register-all"]
Inductive node : Type :=
| File (content : pdf)
| Folder (entries : list (text * node)).

(** ["".join(page.extract_text() for page in reader.pages)]: [None] when a
    page raises. *)
Fixpoint join_pages (pages : list (option text)) : option text :=
  match pages with
  | [] => Some []
  | Some t :: ps =>
      match join_pages ps with
      | Some ts => Some (t ++ ts)
      | None => None
      end
  | None :: _ => None
  end.

(** [extract_text_from_pdf]: any exception is caught and gives [""]. *)
Definition extract_text_from_pdf (pdf_path : node) : text :=
  match pdf_path with
  | File (Pages pages) =>
      match join_pages pages with
      | Some t => t
      | None => []
      end
  | File Unreadable => []
  | Folder _ => []
  end.

(** [match.group(1).strip() if match else "No encontrado"]: for a pattern
    without a group [group(1)] raises [IndexError]; for a group that took
    no part in the match it is [None], and [None.strip()] raises
    [AttributeError]. *)
Definition extract_field_with_regex (t : text) (pattern : regex) : result text :=
  match re_search pattern t no_flags with
  | Some m =>
      match ngroups pattern with
      | O => Raise IndexError
      | S _ =>
          match group m with
          | Some g => Ok (strip g)
          | None => Raise AttributeError
          end
      end
  | None => Ok (str "No encontrado")
  end.

(** One output row: the dictionary built in [process_pdf]. *)
Record row : Type := Row {
  Nombre : text;
  Fecha : text;
  Asunto : text;
  Anexo : text;
  Referencias : text
}.

Definition months : list (text * text) :=
  [ (str "enero", str "01"); (str "febrero", str "02"); (str "marzo", str "03");
    (str "abril", str "04"); (str "mayo", str "05"); (str "junio", str "06");
    (str "julio", str "07"); (str "agosto", str "08");
    (str "septiembre", str "09"); (str "octubre", str "10");
    (str "noviembre", str "11"); (str "diciembre", str "12") ].

(** [d[key]] on a dictionary. *)
Fixpoint getitem (d : list (text * text)) (key : text) : result text :=
  match d with
  | [] => Raise (KeyError key)
  | (k, v) :: d' => if text_eqb k key then Ok v else getitem d' key
  end.

(** [l[i]] on a list. *)
Definition index (l : list text) (i : nat) : result text :=
  match nth_error l i with
  | Some x => Ok x
  | None => Raise IndexError
  end.

Definition doc_name (t : text) : result text :=
  extract_field_with_regex t name_pattern.

Definition date (t : text) : result text :=
  date_match <- extract_field_with_regex t date_pattern ;;
  if negb (text_eqb date_match (str "No encontrado")) then
    let date_parts := re_findall date_parts_pattern date_match no_flags in
    d <- index date_parts 0 ;;
    p <- index date_parts 2 ;;
    m <- getitem months (lower p) ;;
    y <- index date_parts 4 ;;
    Ok (d ++ str "-" ++ m ++ str "-" ++ y)
  else Ok (str "No encontrada").

Definition subject (t : text) : result text :=
  extract_field_with_regex t subject_pattern.

Definition nonempty (s : text) : bool :=
  match s with [] => false | _ => true end.

Definition references (t : text) : result text :=
  refs <-
    match re_search references_pattern t re_DOTALL with
    | Some references_match =>
        match group references_match with
        | Some references_text =>
            Ok (filter nonempty (map strip (split (str "- ") references_text)))
        | None => Raise AttributeError
        end
    | None => Ok []
    end ;;
  Ok (match refs with
      | [] => str "No encontradas"
      | _ => join (str ", ") refs
      end).

Definition annexes (t : text) : result (list text) :=
  match re_search annexes_section_pattern t re_DOTALL with
  | Some annexes_section_match =>
      match group annexes_section_match with
      | Some annexes_section =>
          Ok (re_findall annex_pattern annexes_section re_MULTILINE)
      | None => Raise AttributeError
      end
  | None => Ok []
  end.

(** The two loops that build [rows]. *)
Definition rows (n d s r : text) (anx : list text) : list row :=
  match map (fun annex => Row n d s annex r) anx with
  | [] => [Row n d s (str "No encontrado") r]
  | rs => rs
  end.

(** The field extraction of [process_pdf], from the line after the
    empty-text guard to the end; the specification calls it [extract]. *)
Definition extract (t : text) : result (list row) :=
  n <- doc_name t ;;
  d <- date t ;;
  s <- subject t ;;
  r <- references t ;;
  a <- annexes t ;;
  Ok (rows n d s r a).

Definition process_pdf (pdf_path : node) : result (list row) :=
  match extract_text_from_pdf pdf_path with
  | [] => Ok []
  | t => extract t
  end.

(** [filename.lower().endswith(".pdf")] *)
Definition is_pdf_name (filename : text) : bool :=
  endswith (str ".pdf") (lower filename).

(** The loop of [process_directory] over [os.listdir(directory)]. *)
Fixpoint process_entries (entries : list (text * node)) : result (list row) :=
  match entries with
  | [] => Ok []
  | (filename, pdf_path) :: es =>
      if is_pdf_name filename then
        rs <- process_pdf pdf_path ;;
        data <- process_entries es ;;
        Ok (rs ++ data)
      else process_entries es
  end.

Definition process_directory (directory : node) : result (list row) :=
  match directory with
  | Folder entries => process_entries entries
  | File _ => Raise NotADirectoryError
  end.

(* ================================================================== *)
(** ** Environment variables and the module-level start-up            *)
(* ================================================================== *)

(** The process environment as [environs] sees it after [env.read_env()]. *)
Definition environ : Type := text -> option text.

(** [env.str(var)]: [EnvError] when the variable is not set. *)
Definition env_str (env : environ) (var : text) : result text :=
  match env var with
  | Some v => Ok v
  | None => Raise (EnvError var)
  end.

Definition required_vars : list text :=
  [str "SERVER_ROUTE"; str "DOWNLOAD_ROUTE"].

Definition is_missing (env : environ) (var : text) : bool :=
  match env_str env var with
  | Ok _ => false
  | Raise _ => true
  end.

Definition verify_environment_variables (env : environ) : result unit :=
  let missing_vars := filter (is_missing env) required_vars in
  match missing_vars with
  | [] => Ok tt
  | _ =>
      Raise (EnvironmentError
               (str "Faltan las siguientes variables de entorno: " ++
                join (str ", ") missing_vars))
  end.

(** [os.path.join(a, b)] on POSIX paths. *)
Definition path_join (a b : text) : text :=
  if startswith (str "/") b then b
  else if negb (nonempty a) || endswith (str "/") a then a ++ b
  else a ++ str "/" ++ b.

(** File-system operations of a run, in the order they happen. *)
Inductive io : Type :=
| Listdir (directory : text)
| ToExcel (output_file : text) (df : list row).

(** The statements at the bottom of [main.py], run against an environment
    and a disk (what each path holds, [None] when nothing is there).  The
    result is the trace of file-system operations and how the run ended: the
    output path that the last line prints, or the exception.  The call of
    [save_to_excel_with_style] is the event [ToExcel] and nothing more: what
    the sink writes, and the errors it can raise, are not part of this
    model, nor are errors of [os.listdir] other than a path that is not
    there and a path that is no directory.  The statements about [main]
    concern a run up to its first failure before the sink. *)
Definition main (env : environ) (disk : text -> option node)
    : list io * result text :=
  match env_str env (str "SERVER_ROUTE") with
  | Raise e => ([], Raise e)
  | Ok directory =>
      match env_str env (str "DOWNLOAD_ROUTE") with
      | Raise e => ([], Raise e)
      | Ok download =>
          let output_file := path_join download (str "datos_pdfs.xlsx") in
          match disk directory with
          | None => ([Listdir directory], Raise FileNotFoundError)
          | Some d =>
              match process_directory d with
              | Raise e => ([Listdir directory], Raise e)
              | Ok df =>
                  ([Listdir directory; ToExcel output_file df],
                   Ok output_file)
              end
          end
      end
  end.

(* ================================================================== *)
(** ** Vocabulary of the statements                                   *)
(* ================================================================== *)

(** The text that follows the first occurrence of [sub] in [t]. *)
Fixpoint after_first (sub t : text) : option text :=
  match t with
  | [] => if startswith sub [] then Some [] else None
  | _ :: t' =>
      if startswith sub t then Some (skipn (length sub) t)
      else after_first sub t'
  end.

(** [sub in t]. *)
Definition occurs (sub t : text) : bool :=
  match after_first sub t with
  | Some _ => true
  | None => false
  end.

(** The characters before the first position at which [stop] holds of the
    text ahead, all of them when there is none; and the text from there. *)
Fixpoint take_until (stop : text -> bool) (s : text) : text :=
  match s with
  | [] => []
  | a :: s' => if stop s then [] else a :: take_until stop s'
  end.

Fixpoint drop_until (stop : text -> bool) (s : text) : text :=
  match s with
  | [] => []
  | a :: s' => if stop s then s else drop_until stop s'
  end.

(** The characters up to the first newline. *)
Definition take_line (s : text) : text := take_until (startswith nl) s.

(** A blank line starts here (two newlines in a row), or one newline ends
    the text. *)
Definition blank_or_last (s : text) : bool :=
  startswith (nl ++ nl) s || text_eqb s nl.

(** The characters up to the first blank line, or up to the end, a single
    final newline left out. *)
Definition upto_blank (s : text) : text := take_until blank_or_last s.

(** The leading characters of a class. *)
Fixpoint leading (p : ascii -> bool) (s : text) : text :=
  match s with
  | a :: s' => if p a then a :: leading p s' else []
  | [] => []
  end.

(** The first character is outside the class, or there is none. *)
Definition stops (p : ascii -> bool) (s : text) : bool :=
  match s with
  | [] => true
  | a :: _ => negb (p a)
  end.

(** Where a match leads: from [c] over the text [w] to [c']. *)
Definition advance (c : cursor) (w : text) (c' : cursor) : Prop :=
  rest c = w ++ rest c' /\ seen c' = rev w ++ seen c.

(** [matches fl r c c']: the pattern [r] can match from [c] to [c']. *)
Fixpoint matches (fl : flags) (r : regex) (c c' : cursor) : Prop :=
  match r with
  | Str s => advance c s c' /\ group1 c' = group1 c
  | Rep cs lo hi _ =>
      exists w, advance c w c' /\ group1 c' = group1 c /\
        forallb (in_cset fl cs) w = true /\ lo <= length w /\
        (forall h, hi = Some h -> length w <= h)
  | Cat r1 r2 => exists c1, matches fl r1 c c1 /\ matches fl r2 c1 c'
  | Alt r1 r2 => matches fl r1 c c' \/ matches fl r2 c c'
  | Group r1 => exists c1, matches fl r1 c c1 /\ c' = capture c c1
  | Bol => at_bol fl c = true /\ c' = c
  | Eol => at_eol fl c = true /\ c' = c
  end.

(** Does every way through the pattern pass its capturing group? *)
Fixpoint sets_group (r : regex) : bool :=
  match r with
  | Group _ => true
  | Cat r1 r2 => sets_group r1 || sets_group r2
  | Alt r1 r2 => sets_group r1 && sets_group r2
  | _ => false
  end.

(** The group took part in the match. *)
Definition is_set (g : option text) : Prop := exists s, g = Some s.

(** A directory entry that [process_directory] keeps. *)
Definition is_pdf_entry (e : text * node) : bool := is_pdf_name (fst e).



(** The five columns of a row. *)
Inductive field : Type := FNombre | FFecha | FAsunto | FAnexo | FReferencias.

(** The column [f] of a row. *)
Definition value (f : field) (x : row) : text :=
  match f with
  | FNombre => Nombre x
  | FFecha => Fecha x
  | FAsunto => Asunto x
  | FAnexo => Anexo x
  | FReferencias => Referencias x
  end.

(** The placeholder of each column. *)
Definition sentinel (f : field) : text :=
  match f with
  | FFecha => str "No encontrada"
  | FReferencias => str "No encontradas"
  | _ => str "No encontrado"
  end.

(** [bool(m)] for the result of [re.search]. *)
Definition found (o : option match_obj) : bool :=
  match o with
  | Some _ => true
  | None => false
  end.

(** The pattern of the field's rule does not match: for the annexes, the
    section pattern does not match the text or the item pattern matches
    nowhere in the section. *)
Definition match_fails (f : field) (t : text) : bool :=
  match f with
  | FNombre => negb (found (re_search name_pattern t no_flags))
  | FFecha => negb (found (re_search date_pattern t no_flags))
  | FAsunto => negb (found (re_search subject_pattern t no_flags))
  | FReferencias => negb (found (re_search references_pattern t re_DOTALL))
  | FAnexo =>
      match re_search annexes_section_pattern t re_DOTALL with
      | None => true
      | Some m =>
          match group m with
          | Some section =>
              match re_findall annex_pattern section re_MULTILINE with
              | [] => true
              | _ => false
              end
          | None => false
          end
      end
  end.

(** A row without its subject. *)
Definition but_subject (x : row) : text * text * text * text :=
  (Nombre x, Fecha x, Anexo x, Referencias x).

(** Split on ["- "], trim each piece, drop the empty ones. *)
Definition reference_list (references_text : text) : list text :=
  filter nonempty (map strip (split (str "- ") references_text)).

(** The references field as C5 words it: when the label is present, the
    pieces of the captured line joined with [", "], and the sentinel only
    when the label is absent.  The capture is read as starting after the
    whitespace that follows the label, the reading under which the example
    of the claim holds. *)
Definition references_as_claimed (t : text) : text :=
  match after_first (str "Referencias:") t with
  | Some a => join (str ", ") (reference_list (take_line (lstrip a)))
  | None => str "No encontradas"
  end.

(** The references field as the code computes it: as claimed, but the
    sentinel also when no non-empty piece is left. *)
Definition references_spec (t : text) : text :=
  match after_first (str "Referencias:") t with
  | Some a =>
      match reference_list (take_line (lstrip a)) with
      | [] => str "No encontradas"
      | l => join (str ", ") l
      end
  | None => str "No encontradas"
  end.

(** What [.] matches without DOTALL. *)
Definition not_newline (a : ascii) : bool := negb (isnewline a).

(** A line the item pattern treats on its own: it holds no newline, and if
    it begins with a hyphen, something other than whitespace follows. *)
Definition ok_line (line : text) : bool :=
  forallb not_newline line &&
  (negb (startswith (str "-") line) || nonempty (lstrip (tl line))).

(** What a line gives: after a leading hyphen, the rest of the line from
    its first character that is not whitespace. *)
Definition item_of_line (line : text) : list text :=
  if startswith (str "-") line then [lstrip (tl line)] else [].

(** The annex items as C6 words them: the lines of the section that begin
    with ["- "]. *)
Definition annexes_as_claimed (t : text) : list text :=
  match after_first (str "Anexos:") t with
  | Some a => filter (startswith (str "- ")) (split nl (upto_blank (lstrip a)))
  | None => []
  end.

Definition hyphen : ascii := "-"%char.

(** U+000D, which [.] matches and [\s] takes for whitespace. *)
Definition carriage_return : ascii := ascii_of_N 13.

(** Case analysis over the 256 characters. *)
Ltac each_char :=
  intros [[] [] [] [] [] [] [] []]; vm_compute; intros; congruence.

(** Non-empty runs of one class. *)
Definition spaces (s : text) : bool := nonempty s && forallb isspace s.
Definition digits (s : text) : bool := nonempty s && forallb isdigit s.
Definition word (s : text) : bool := nonempty s && forallb isword s.

(** The text of a date: day, ["de"], month, ["de"], year, with separators. *)
Definition date_text (d s1 s2 w s3 s4 y : text) : text :=
  d ++ s1 ++ str "de" ++ s2 ++ w ++ s3 ++ str "de" ++ s4 ++ y.

(** Is the text of the form DD-MM-YYYY? *)
Definition is_dd_mm_yyyy (s : text) : bool :=
  match s with
  | [d1; d2; h1; m1; m2; h2; y1; y2; y3; y4] =>
      forallb isdigit [d1; d2; m1; m2; y1; y2; y3; y4] &&
      Ascii.eqb h1 hyphen && Ascii.eqb h2 hyphen
  | _ => false
  end.

(** The shape [label\s*(.*?)E] of the references and annex-section
    patterns. *)
Definition section_pattern (label : text) (E : regex) : regex :=
  Str label +++ Rep Space 0 None true +++ Group (Rep Dot 0 None false) +++ E.

(** The text that follows the first place where one of two labels begins. *)
Fixpoint after_label (l1 l2 t : text) : option text :=
  match t with
  | [] =>
      if startswith l1 [] then Some []
      else if startswith l2 [] then Some [] else None
  | _ :: t' =>
      if startswith l1 t then Some (skipn (length l1) t)
      else if startswith l2 t then Some (skipn (length l2) t)
      else after_label l1 l2 t'
  end.

(** The end [\s*(.+?)\n] of the name and subject patterns. *)
Definition line_tail : regex :=
  Rep Space 0 None true +++ Group (Rep Dot 1 None false) +++ Str nl.

(** The pattern holds no [^]. *)
Fixpoint bol_free (r : regex) : bool :=
  match r with
  | Bol => false
  | Cat r1 r2 | Alt r1 r2 => bol_free r1 && bol_free r2
  | Group r1 => bol_free r1
  | _ => true
  end.

(** Two positions with the same text ahead and the same group. *)
Definition same_ahead (c c' : cursor) : Prop :=
  rest c = rest c' /\ group1 c = group1 c'.

(** Two attempts that both fail, or both succeed at such positions. *)
Definition both (o o' : option cursor) : Prop :=
  match o, o' with
  | Some c, Some c' => same_ahead c c'
  | None, None => True
  | _, _ => False
  end.

(** [v] is what is left of [w] from one of its positions on, the end
    excluded. *)
Definition tail_of (w v : text) : Prop := v <> [] /\ exists u, w = u ++ v.

(** The labels of the subject rule, and those of the other rules. *)
Definition subject_labels : list text := [str "Asunto:"; str "ASUNTO:"].

Definition other_labels : list text :=
  [str "Oficio Nro."; str "Memorando Nro."; str "Referencias:"; str "Anexos:"].

(** A line that gives a text its subject: a label, the subject, a newline. *)
Definition subject_line (lab body : text) : text := lab ++ body ++ nl.

(** A subject line in which no other rule finds anything: the subject is
    not blank, and the line holds no digit and no label of another rule. *)
Definition plain_subject_line (lab body : text) : bool :=
  existsb (text_eqb lab) subject_labels &&
  negb (existsb isnewline body) && nonempty (lstrip body) &&
  negb (existsb isdigit body) &&
  forallb (fun l => negb (occurs l (lab ++ body))) other_labels.

(* ================================================================== *)
(** ** The patterns, read from their source text                      *)
(* ================================================================== *)

Lemma name_pattern_source :
  re_compile "(?:Oficio|Memorando) Nro\.\s*(.+?)\n" = Some name_pattern.
Proof. reflexivity. Qed.

Lemma date_pattern_source :
  re_compile "(\d{1,2}\s+de\s+\w+\s+de\s+\d{4})" = Some date_pattern.
Proof. reflexivity. Qed.

Lemma date_parts_pattern_source :
  re_compile "\d+|\w+" = Some date_parts_pattern.
Proof. reflexivity. Qed.

Lemma subject_pattern_source :
  re_compile "(?:Asunto:|ASUNTO:)\s*(.+?)\n" = Some subject_pattern.
Proof. reflexivity. Qed.

Lemma references_pattern_source :
  re_compile "Referencias:\s*(.*?)(?:\n|$)" = Some references_pattern.
Proof. reflexivity. Qed.

Lemma annexes_section_pattern_source :
  re_compile "Anexos:\s*(.*?)(?:\n\n|$)" = Some annexes_section_pattern.
Proof. reflexivity. Qed.

Lemma annex_pattern_source :
  re_compile "^-\s*(.+)$" = Some annex_pattern.
Proof. reflexivity. Qed.

(* ================================================================== *)
(** ** Strings: basic facts                                           *)
(* ================================================================== *)

Lemma text_eqb_eq (s t : text) : text_eqb s t = true <-> s = t.
Proof.
  revert t; induction s as [|a s IH]; intros [|b t]; simpl; split;
    try congruence; try reflexivity.
  - intros H. apply andb_true_iff in H as [Hab Hst].
    apply Ascii.eqb_eq in Hab. apply IH in Hst. congruence.
  - intros H. injection H as -> ->. rewrite Ascii.eqb_refl. simpl.
    apply IH. reflexivity.
Qed.

Lemma startswith_app (p t : text) : startswith p (p ++ t) = true.
Proof.
  induction p as [|a p IH]; simpl; [reflexivity|].
  rewrite Ascii.eqb_refl. exact IH.
Qed.

Lemma startswith_inv (p t : text) :
  startswith p t = true -> t = p ++ skipn (length p) t.
Proof.
  revert t; induction p as [|a p IH]; intros t H; simpl in *; [reflexivity|].
  destruct t as [|b t]; [discriminate|].
  apply andb_true_iff in H as [Hab Hp]. apply Ascii.eqb_eq in Hab. subst b.
  simpl. f_equal. apply IH. exact Hp.
Qed.

Lemma skipn_length_app (p t : text) : skipn (length p) (p ++ t) = t.
Proof. induction p; simpl; auto. Qed.

Lemma rev_cons_app (a : ascii) (w sn : text) :
  rev (a :: w) ++ sn = rev w ++ a :: sn.
Proof. simpl. rewrite <- app_assoc. reflexivity. Qed.

Lemma firstn_length_app (w r : text) :
  firstn (length (w ++ r) - length r) (w ++ r) = w.
Proof.
  rewrite length_app. replace (length w + length r - length r) with (length w) by lia.
  rewrite firstn_app, Nat.sub_diag, firstn_all. simpl. apply app_nil_r.
Qed.

Lemma span_app (c c' : cursor) (w : text) :
  rest c = w ++ rest c' -> span c c' = w.
Proof. unfold span. intros ->. apply firstn_length_app. Qed.

(* ================================================================== *)
(** ** The matcher: what a match consists of                          *)
(* ================================================================== *)

Lemma eat_spec (s : text) (c : cursor) :
  eat s c =
  if startswith s (rest c)
  then Some (Cursor (rev s ++ seen c) (skipn (length s) (rest c)) (group1 c))
  else None.
Proof.
  revert c; induction s as [|a s IH]; intros [sn rs g]; simpl; [reflexivity|].
  destruct rs as [|b rs]; [reflexivity|].
  destruct (Ascii.eqb a b) eqn:E; simpl; [|reflexivity].
  apply Ascii.eqb_eq in E. subst b. rewrite IH. simpl.
  rewrite <- app_assoc. reflexivity.
Qed.

Lemma rep_eq (A : Type) (p : ascii -> bool) (greedy : bool) (lo : nat)
    (hi : option nat) (k : cursor -> option A) (sn rs : text) (g : option text) :
  rep p greedy lo hi k sn rs g =
  let more :=
    if hi_zero hi then None
    else match rs with
         | a :: rs' =>
             if p a
             then rep p greedy (pred lo) (option_map pred hi) k (a :: sn) rs' g
             else None
         | [] => None
         end in
  match lo with
  | S _ => more
  | O =>
      if greedy
      then match more with
           | Some x => Some x
           | None => k (Cursor sn rs g)
           end
      else match k (Cursor sn rs g) with
           | Some x => Some x
           | None => more
           end
  end.
Proof. destruct rs; reflexivity. Qed.

(** A successful quantified class either stops here or takes one more
    character. *)
Lemma rep_cases (A : Type) (p : ascii -> bool) (greedy : bool) (lo : nat)
    (hi : option nat) (k : cursor -> option A) (sn rs : text) (g : option text)
    (x : A) :
  rep p greedy lo hi k sn rs g = Some x ->
  (lo = 0 /\ k (Cursor sn rs g) = Some x) \/
  (hi_zero hi = false /\
   exists a rs', rs = a :: rs' /\ p a = true /\
     rep p greedy (pred lo) (option_map pred hi) k (a :: sn) rs' g = Some x).
Proof.
  rewrite rep_eq. cbv zeta.
  destruct (hi_zero hi) eqn:Hz.
  - destruct lo; [|discriminate]. destruct greedy.
    + intros H. left. auto.
    + destruct (k (Cursor sn rs g)); intros H; [left; auto | discriminate].
  - destruct rs as [|a rs'].
    + destruct lo; [|discriminate]. destruct greedy.
      * intros H. left. auto.
      * destruct (k (Cursor sn [] g)); intros H; [left; auto | discriminate].
    + destruct (p a) eqn:Hp.
      * destruct lo.
        -- destruct greedy.
           ++ destruct (rep p true (pred 0) (option_map pred hi) k (a :: sn) rs' g) eqn:E.
              ** intros H. right. split; [reflexivity|]. exists a, rs'. rewrite <- H. auto.
              ** intros H. left. auto.
           ++ destruct (k (Cursor sn (a :: rs') g)) eqn:E.
              ** intros H. left. rewrite <- H. auto.
              ** intros H. right. split; [reflexivity|]. exists a, rs'. auto.
        -- intros H. right. split; [reflexivity|]. exists a, rs'. auto.
      * destruct lo; [|discriminate]. destruct greedy.
        -- intros H. left. auto.
        -- destruct (k (Cursor sn (a :: rs') g)); intros H; [left; auto | discriminate].
Qed.

Lemma rep_sound (A : Type) (p : ascii -> bool) (greedy : bool)
    (k : cursor -> option A) (g : option text) (x : A) :
  forall (rs : text) (lo : nat) (hi : option nat) (sn : text),
  rep p greedy lo hi k sn rs g = Some x ->
  exists w rs', rs = w ++ rs' /\ forallb p w = true /\ lo <= length w /\
    (forall h, hi = Some h -> length w <= h) /\
    k (Cursor (rev w ++ sn) rs' g) = Some x.
Proof.
  induction rs as [|b rs IH]; intros lo hi sn H; apply rep_cases in H.
  - destruct H as [[-> H] | [_ (a & rs' & E & _)]]; [|discriminate].
    exists [], []. simpl. repeat split; auto; intros; lia.
  - destruct H as [[-> H] | [Hz (a & rs' & E & Hp & H)]].
    + exists [], (b :: rs). simpl. repeat split; auto; intros; lia.
    + injection E as <- <-. apply IH in H.
      destruct H as (w & rs' & -> & Hw & Hlo & Hhi & Hk).
      exists (b :: w), rs'. simpl. rewrite Hp, Hw.
      repeat split; auto; try lia.
      * intros h ->. destruct h; [discriminate|].
        specialize (Hhi h eq_refl). lia.
      * rewrite <- app_assoc. exact Hk.
Qed.

(** Soundness of the matcher: a success went through a match of [r]. *)
Lemma mtch_sound (fl : flags) (A : Type) (r : regex) :
  forall (k : cursor -> option A) (c : cursor) (x : A),
  mtch fl r k c = Some x ->
  exists c', matches fl r c c' /\ k c' = Some x.
Proof.
  induction r as [s|cs lo hi greedy|r1 IH1 r2 IH2|r1 IH1 r2 IH2|r1 IH1| |];
    intros k c x H; simpl in H.
  - rewrite eat_spec in H. destruct (startswith s (rest c)) eqn:E; [|discriminate].
    eexists. split; [|exact H]. simpl. unfold advance. simpl.
    repeat split; auto. apply startswith_inv. exact E.
  - apply rep_sound in H. destruct H as (w & rs' & E & Hw & Hlo & Hhi & Hk).
    eexists. split; [|exact Hk]. simpl. exists w. unfold advance. simpl.
    repeat split; auto.
  - apply IH1 in H. destruct H as (c1 & M1 & H). apply IH2 in H.
    destruct H as (c2 & M2 & H). exists c2. split; [|exact H].
    simpl. exists c1. auto.
  - destruct (mtch fl r1 k c) eqn:E.
    + injection H as ->. apply IH1 in E. destruct E as (c' & M & Hk).
      exists c'. simpl. auto.
    + apply IH2 in H. destruct H as (c' & M & Hk). exists c'. simpl. auto.
  - apply IH1 in H. destruct H as (c1 & M & Hk).
    exists (capture c c1). split; [|exact Hk]. simpl. exists c1. auto.
  - destruct (at_bol fl c) eqn:E; [|discriminate]. exists c. simpl. auto.
  - destruct (at_eol fl c) eqn:E; [|discriminate]. exists c. simpl. auto.
Qed.

Lemma matches_keeps_group (fl : flags) (r : regex) :
  forall c c', matches fl r c c' -> is_set (group1 c) -> is_set (group1 c').
Proof.
  induction r as [s|cs lo hi greedy|r1 IH1 r2 IH2|r1 IH1 r2 IH2|r1 IH1| |];
    intros c c' M G; simpl in M.
  - destruct M as (_ & ->). exact G.
  - destruct M as (w & _ & -> & _). exact G.
  - destruct M as (c1 & M1 & M2). eauto.
  - destruct M as [M | M]; eauto.
  - destruct M as (c1 & _ & ->). simpl. eexists. reflexivity.
  - destruct M as (_ & ->). exact G.
  - destruct M as (_ & ->). exact G.
Qed.

Lemma matches_sets_group (fl : flags) (r : regex) :
  forall c c', sets_group r = true -> matches fl r c c' -> is_set (group1 c').
Proof.
  induction r as [s|cs lo hi greedy|r1 IH1 r2 IH2|r1 IH1 r2 IH2|r1 IH1| |];
    intros c c' S M; simpl in S, M; try discriminate.
  - destruct M as (c1 & M1 & M2). apply orb_true_iff in S as [S | S].
    + eapply matches_keeps_group; eauto.
    + eauto.
  - apply andb_true_iff in S as [S1 S2]. destruct M as [M | M]; eauto.
  - destruct M as (c1 & _ & ->). simpl. eexists. reflexivity.
Qed.

(** A search that succeeds found a match of the pattern at some position
    of the text. *)
Lemma search_from_sound (fl : flags) (r : regex) (m : match_obj) :
  forall rs sn, search_from fl r sn rs = Some m ->
  exists pre post, rs = pre ++ post /\
    m_start m = Cursor (rev pre ++ sn) post None /\
    matches fl r (m_start m) (m_end m).
Proof.
  assert (At : forall sn rs, match_at fl r sn rs = Some m ->
            m_start m = Cursor sn rs None /\ matches fl r (m_start m) (m_end m)).
  { intros sn rs H. unfold match_at in H.
    destruct (mtch fl r (fun c' => Some c') (Cursor sn rs None)) eqn:E; [|discriminate].
    injection H as <-. simpl. apply mtch_sound in E as (c' & M & Hk).
    injection Hk as ->. auto. }
  induction rs as [|a rs IH]; intros sn H; simpl in H.
  - destruct (match_at fl r sn []) eqn:E; [|discriminate]. injection H as ->.
    apply At in E as [E M]. exists [], []. auto.
  - destruct (match_at fl r sn (a :: rs)) eqn:E.
    + injection H as ->. apply At in E as [E M]. exists [], (a :: rs). auto.
    + apply IH in H as (pre & post & -> & S & M).
      exists (a :: pre), post. rewrite rev_cons_app. auto.
Qed.

Lemma re_search_sound (fl : flags) (r : regex) (t : text) (m : match_obj) :
  re_search r t fl = Some m ->
  exists pre post, t = pre ++ post /\
    m_start m = Cursor (rev pre) post None /\
    matches fl r (m_start m) (m_end m).
Proof.
  intros H. apply search_from_sound in H as (pre & post & E & S & M).
  rewrite app_nil_r in S. eauto.
Qed.

(** With a group on every way through the pattern, [m.group(1)] is never
    [None]. *)
Lemma re_search_group (fl : flags) (r : regex) (t : text) (m : match_obj) :
  sets_group r = true -> re_search r t fl = Some m -> is_set (group m).
Proof.
  intros S H. apply re_search_sound in H as (_ & _ & _ & _ & M).
  eapply matches_sets_group; eauto.
Qed.

(* ================================================================== *)
(** ** The matcher: which match is found                              *)
(* ================================================================== *)

(** A greedy class that can run over all of [w] and no further, and whose
    continuation succeeds there, ends there. *)
Lemma rep_greedy_scan (A : Type) (p : ascii -> bool) (k : cursor -> option A)
    (g : option text) (x : A) (rs : text) :
  forall (w sn : text) (lo : nat),
  forallb p w = true -> stops p rs = true -> lo <= length w ->
  k (Cursor (rev w ++ sn) rs g) = Some x ->
  rep p true lo None k sn (w ++ rs) g = Some x.
Proof.
  induction w as [|a w IH]; intros sn lo Hw Hs Hlo Hk; rewrite rep_eq; cbv zeta.
  - simpl in *. replace lo with 0 by lia.
    destruct rs as [|b rs]; simpl in *; [exact Hk|].
    apply negb_true_iff in Hs. rewrite Hs. exact Hk.
  - simpl in Hw. apply andb_true_iff in Hw as [Ha Hw]. simpl. rewrite Ha.
    rewrite rev_cons_app in Hk.
    assert (E : rep p true (pred lo) None k (a :: sn) (w ++ rs) g = Some x).
    { apply IH; auto. simpl in Hlo. lia. }
    rewrite E. destruct lo; reflexivity.
Qed.

Lemma take_drop_until (stop : text -> bool) (s : text) :
  s = take_until stop s ++ drop_until stop s.
Proof.
  induction s as [|a s IH]; simpl; [reflexivity|].
  destruct (stop (a :: s)); simpl; [reflexivity|]. f_equal. exact IH.
Qed.

Lemma drop_until_stop (stop : text -> bool) (s : text) :
  drop_until stop s = [] \/ stop (drop_until stop s) = true.
Proof.
  induction s as [|a s IH]; simpl; [left; reflexivity|].
  destruct (stop (a :: s)) eqn:E; auto.
Qed.

Lemma leading_lstrip (s : text) : s = leading isspace s ++ lstrip s.
Proof.
  induction s as [|a s IH]; simpl; [reflexivity|].
  destruct (isspace a); simpl; [f_equal; exact IH | reflexivity].
Qed.

Lemma leading_all (p : ascii -> bool) (s : text) : forallb p (leading p s) = true.
Proof.
  induction s as [|a s IH]; simpl; [reflexivity|].
  destruct (p a) eqn:E; simpl; [rewrite E; exact IH | reflexivity].
Qed.

Lemma lstrip_stops (s : text) : stops isspace (lstrip s) = true.
Proof.
  induction s as [|a s IH]; simpl; [reflexivity|].
  destruct (isspace a) eqn:E; [exact IH|]. simpl. rewrite E. reflexivity.
Qed.

(** A lazy [.*?] under DOTALL runs to the first position where [stop]
    holds, when the continuation fails wherever [stop] does not hold and
    succeeds wherever it does. *)
Lemma rep_lazy_until (A : Type) (p : ascii -> bool) (stop : text -> bool)
    (k : cursor -> option A) (g : option text) :
  (forall a, p a = true) ->
  (forall sn a s, stop (a :: s) = false -> k (Cursor sn (a :: s) g) = None) ->
  (forall sn a s, stop (a :: s) = true -> k (Cursor sn (a :: s) g) <> None) ->
  forall body sn,
  rep p false 0 None k sn body g =
  k (Cursor (rev (take_until stop body) ++ sn) (drop_until stop body) g).
Proof.
  intros Hp Hfail Hok. induction body as [|a s IH]; intros sn; rewrite rep_eq; cbv zeta.
  - simpl. destruct (k (Cursor sn [] g)); reflexivity.
  - simpl. destruct (stop (a :: s)) eqn:E.
    + simpl. specialize (Hok sn a s E).
      destruct (k (Cursor sn (a :: s) g)); [reflexivity | congruence].
    + rewrite (Hfail sn a s E), Hp, IH, rev_cons_app. reflexivity.
Qed.

Lemma matches_no_group (fl : flags) (r : regex) :
  forall c c', ngroups r = 0 -> matches fl r c c' -> group1 c' = group1 c.
Proof.
  induction r as [s|cs lo hi greedy|r1 IH1 r2 IH2|r1 IH1 r2 IH2|r1 IH1| |];
    intros c c' N M; simpl in N, M; try discriminate.
  - apply M.
  - destruct M as (w & _ & G & _). exact G.
  - destruct M as (c1 & M1 & M2).
    rewrite (IH2 c1 c') by (auto; lia). apply IH1; auto; lia.
  - destruct M as [M | M]; [apply IH1 | apply IH2]; auto; lia.
  - destruct M as (_ & ->). reflexivity.
  - destruct M as (_ & ->). reflexivity.
Qed.

(** Patterns of the shape [label\s*(.*?)E] under DOTALL, where the end [E]
    has no group, fails wherever [stop] does not hold of the text ahead and
    succeeds wherever it does and at the end of the text. *)
Section LabelledSection.

Variable label : text.
Variable E : regex.
Variable stop : text -> bool.

Hypothesis E_no_group : ngroups E = 0.
Hypothesis E_fails : forall sn a s g,
  stop (a :: s) = false ->
  mtch re_DOTALL E (fun c' => Some c') (Cursor sn (a :: s) g) = None.
Hypothesis E_succeeds : forall sn a s g,
  stop (a :: s) = true ->
  mtch re_DOTALL E (fun c' => Some c') (Cursor sn (a :: s) g) <> None.
Hypothesis E_at_end : forall sn g,
  mtch re_DOTALL E (fun c' => Some c') (Cursor sn [] g) <> None.

Lemma section_match_at (sn a : text) :
  exists m, match_at re_DOTALL (section_pattern label E) sn (label ++ a) = Some m /\
    group m = Some (take_until stop (lstrip a)).
Proof.
  unfold match_at, section_pattern. simpl mtch. rewrite eat_spec. simpl rest.
  rewrite startswith_app, skipn_length_app. simpl.
  set (sn1 := rev label ++ sn).
  set (K := mtch re_DOTALL (Group (Rep Dot 0 None false) +++ E) (fun c' => Some c')).
  change (exists m,
    match rep isspace true 0 None K sn1 a None with
    | Some c' => Some (Match (Cursor sn (label ++ a) None) c')
    | None => None
    end = Some m /\ group m = Some (take_until stop (lstrip a))).
  assert (HK : exists c', K (Cursor (rev (leading isspace a) ++ sn1) (lstrip a) None) = Some c'
                 /\ group1 c' = Some (take_until stop (lstrip a))).
  { unfold K. simpl mtch.
    set (c2 := Cursor (rev (leading isspace a) ++ sn1) (lstrip a) None).
    rewrite rep_lazy_until with (stop := stop).
    - set (c3 := Cursor _ _ _).
      destruct (mtch re_DOTALL E (fun c' => Some c') (capture c2 c3)) as [c4|] eqn:E4.
      + exists c4. split; [reflexivity|].
        apply mtch_sound in E4 as (c5 & M & E5). injection E5 as ->.
        rewrite (@matches_no_group _ _ _ _ E_no_group M). simpl. f_equal.
        apply span_app. simpl. apply take_drop_until.
      + exfalso. unfold capture in E4. simpl in E4. revert E4.
        destruct (drop_until_stop stop (lstrip a)) as [D | D].
        * rewrite D. apply E_at_end.
        * destruct (drop_until stop (lstrip a)) as [|b s]; [apply E_at_end|].
          apply E_succeeds. exact D.
    - reflexivity.
    - intros sn' b s Hs. unfold capture. simpl. apply E_fails. exact Hs.
    - intros sn' b s Hs. unfold capture. simpl. apply E_succeeds. exact Hs. }
  destruct HK as (c' & HK & G).
  assert (R : forall a', a' = leading isspace a ++ lstrip a ->
            rep isspace true 0 None K sn1 a' None = Some c').
  { intros a' ->. apply rep_greedy_scan; auto using leading_all, lstrip_stops.
    lia. }
  rewrite (R a (leading_lstrip a)).
  eexists. split; [reflexivity|]. exact G.
Qed.

Lemma section_match_at_none (sn t : text) :
  startswith label t = false -> match_at re_DOTALL (section_pattern label E) sn t = None.
Proof.
  intros H. unfold match_at, section_pattern. simpl mtch. rewrite eat_spec.
  simpl rest. rewrite H. reflexivity.
Qed.

Lemma section_search_from (t : text) :
  forall sn,
  match after_first label t with
  | None => search_from re_DOTALL (section_pattern label E) sn t = None
  | Some a =>
      exists m, search_from re_DOTALL (section_pattern label E) sn t = Some m /\
        group m = Some (take_until stop (lstrip a))
  end.
Proof.
  induction t as [|b t IH]; intros sn.
  - simpl after_first. destruct (startswith label []) eqn:S.
    + apply startswith_inv in S. simpl in S.
      destruct (section_match_at sn []) as (m & Hm & G).
      rewrite app_nil_r in Hm. destruct label; [|discriminate].
      exists m. simpl. simpl in Hm. rewrite Hm. auto.
    + simpl. rewrite section_match_at_none by exact S. reflexivity.
  - simpl after_first. destruct (startswith label (b :: t)) eqn:S.
    + pose proof (startswith_inv _ _ S) as Ebt.
      destruct (section_match_at sn (skipn (length label) (b :: t))) as (m & Hm & G).
      rewrite <- Ebt in Hm. exists m. simpl search_from. rewrite Hm. auto.
    + simpl search_from. rewrite section_match_at_none by exact S. apply IH.
Qed.

End LabelledSection.

Lemma startswith_nl (a : ascii) (s : text) :
  startswith nl (a :: s) = isnewline a.
Proof.
  unfold nl, isnewline. cbn [startswith]. rewrite andb_true_r. apply Ascii.eqb_sym.
Qed.

Lemma mtch_Str_or_Eol (fl : flags) (s : text) (c : cursor) :
  mtch fl (Alt (Str s) Eol) (fun c' => Some c') c =
  if startswith s (rest c)
  then Some (Cursor (rev s ++ seen c) (skipn (length s) (rest c)) (group1 c))
  else if at_eol fl c then Some c else None.
Proof.
  cbn [mtch]. rewrite eat_spec. destruct (startswith s (rest c)); reflexivity.
Qed.

(** Where [re.search] finds the references: after the first occurrence of
    the label and the whitespace that follows it, up to the next newline. *)
Lemma references_search (t : text) :
  match after_first (str "Referencias:") t with
  | None => re_search references_pattern t re_DOTALL = None
  | Some a =>
      exists m, re_search references_pattern t re_DOTALL = Some m /\
        group m = Some (take_line (lstrip a))
  end.
Proof.
  apply section_search_from with (E := Alt (Str nl) Eol) (stop := startswith nl).
  - reflexivity.
  - intros sn a s g H. rewrite mtch_Str_or_Eol. cbn [rest]. rewrite H.
    rewrite startswith_nl in H. unfold at_eol. cbn [rest]. rewrite H. reflexivity.
  - intros sn a s g H. rewrite mtch_Str_or_Eol. cbn [rest]. rewrite H. discriminate.
  - intros sn g. rewrite mtch_Str_or_Eol. cbn. discriminate.
Qed.

Lemma blank_or_last_eol (a : ascii) (s : text) (sn : text) (g : option text) :
  startswith (nl ++ nl) (a :: s) = false ->
  at_eol re_DOTALL (Cursor sn (a :: s) g) = text_eqb (a :: s) nl.
Proof.
  intros _. unfold at_eol, nl. cbn [rest MULTILINE re_DOTALL text_eqb orb].
  unfold isnewline. destruct s; reflexivity.
Qed.

(** Where [re.search] finds the annex section: after the first occurrence
    of the label and the whitespace that follows it, up to the first blank
    line, or to the end with one final newline left out. *)
Lemma annexes_section_search (t : text) :
  match after_first (str "Anexos:") t with
  | None => re_search annexes_section_pattern t re_DOTALL = None
  | Some a =>
      exists m, re_search annexes_section_pattern t re_DOTALL = Some m /\
        group m = Some (upto_blank (lstrip a))
  end.
Proof.
  apply section_search_from with (E := Alt (Str (nl ++ nl)) Eol)
                                 (stop := blank_or_last).
  - reflexivity.
  - intros sn a s g H. unfold blank_or_last in H.
    destruct (startswith (nl ++ nl) (a :: s)) eqn:H1; [discriminate|].
    destruct (text_eqb (a :: s) nl) eqn:H2; [discriminate|].
    rewrite mtch_Str_or_Eol. cbn [rest]. rewrite H1.
    rewrite blank_or_last_eol by exact H1. rewrite H2. reflexivity.
  - intros sn a s g H. unfold blank_or_last in H. rewrite mtch_Str_or_Eol. cbn [rest].
    destruct (startswith (nl ++ nl) (a :: s)) eqn:H1; [discriminate|].
    destruct (text_eqb (a :: s) nl) eqn:H2; [|discriminate].
    rewrite blank_or_last_eol by exact H1. rewrite H2. discriminate.
  - intros sn g. rewrite mtch_Str_or_Eol. cbn. discriminate.
Qed.

(* ================================================================== *)
(** ** The field rules never fail on a missing group                  *)
(* ================================================================== *)

Lemma sets_group_ngroups (r : regex) :
  sets_group r = true -> exists n, ngroups r = S n.
Proof.
  induction r as [s|cs lo hi greedy|r1 IH1 r2 IH2|r1 IH1 r2 IH2|r1 IH1| |];
    cbn [sets_group ngroups]; intros H; try discriminate.
  - apply orb_true_iff in H as [H | H].
    + destruct (IH1 H) as (n & ->). eexists. reflexivity.
    + destruct (IH2 H) as (n & ->). rewrite Nat.add_succ_r. eexists. reflexivity.
  - apply andb_true_iff in H as [H _]. destruct (IH1 H) as (n & ->).
    eexists. reflexivity.
  - eexists. reflexivity.
Qed.

Lemma extract_field_with_regex_ok (t : text) (pattern : regex) :
  sets_group pattern = true ->
  exists v, extract_field_with_regex t pattern = Ok v.
Proof.
  intros S. unfold extract_field_with_regex.
  destruct (re_search pattern t no_flags) as [m|] eqn:E; [|eauto].
  destruct (sets_group_ngroups _ S) as (n & ->).
  destruct (re_search_group _ _ _ S E) as (g & ->). eauto.
Qed.

Lemma extract_field_with_regex_none (t : text) (pattern : regex) :
  re_search pattern t no_flags = None ->
  extract_field_with_regex t pattern = Ok (str "No encontrado").
Proof. intros E. unfold extract_field_with_regex. rewrite E. reflexivity. Qed.

Lemma doc_name_ok (t : text) : exists n, doc_name t = Ok n.
Proof. apply extract_field_with_regex_ok. reflexivity. Qed.

Lemma subject_ok (t : text) : exists s, subject t = Ok s.
Proof. apply extract_field_with_regex_ok. reflexivity. Qed.

Lemma references_ok (t : text) : exists r, references t = Ok r.
Proof.
  unfold references.
  destruct (re_search references_pattern t re_DOTALL) as [m|] eqn:E.
  - assert (S : sets_group references_pattern = true) by reflexivity.
    destruct (re_search_group _ _ _ S E) as (g & ->). simpl. eauto.
  - simpl. eauto.
Qed.

Lemma annexes_ok (t : text) : exists a, annexes t = Ok a.
Proof.
  unfold annexes.
  destruct (re_search annexes_section_pattern t re_DOTALL) as [m|] eqn:E; [|eauto].
  assert (S : sets_group annexes_section_pattern = true) by reflexivity.
  destruct (re_search_group _ _ _ S E) as (g & ->). eauto.
Qed.

(** The only rule that can raise is the date rule. *)
Lemma extract_date (t : text) :
  match date t with
  | Ok d =>
      exists n s r a, doc_name t = Ok n /\ subject t = Ok s /\
        references t = Ok r /\ annexes t = Ok a /\
        extract t = Ok (rows n d s r a)
  | Raise e => extract t = Raise e
  end.
Proof.
  unfold extract.
  destruct (doc_name_ok t) as (n & ->), (subject_ok t) as (s & ->),
    (references_ok t) as (r & ->), (annexes_ok t) as (a & ->).
  destruct (date t) as [d|e]; simpl; [|reflexivity].
  exists n, s, r, a. auto.
Qed.

(* ================================================================== *)
(** ** Row expansion                                                  *)
(* ================================================================== *)

Lemma rows_annexes (n d s r : text) (anx : list text) :
  map Anexo (rows n d s r anx) =
  match anx with
  | [] => [str "No encontrado"]
  | _ => anx
  end.
Proof.
  unfold rows. destruct anx as [|a anx]; [reflexivity|].
  cbn [map Anexo]. f_equal. induction anx; simpl; congruence.
Qed.

Lemma rows_fields (n d s r : text) (anx : list text) (x : row) :
  In x (rows n d s r anx) ->
  Nombre x = n /\ Fecha x = d /\ Asunto x = s /\ Referencias x = r.
Proof.
  unfold rows. destruct anx as [|a anx].
  - simpl. intros [<- | []]. auto.
  - simpl. intros [<- | H]; [auto|].
    apply in_map_iff in H as (annex & <- & _). auto.
Qed.

Lemma rows_not_nil (n d s r : text) (anx : list text) : rows n d s r anx <> [].
Proof. unfold rows. destruct anx; discriminate. Qed.

(* ================================================================== *)
(** ** The directory driver                                           *)
(* ================================================================== *)



Lemma process_entries_app (es1 es2 : list (text * node)) :
  process_entries (es1 ++ es2) =
  rs1 <- process_entries es1 ;; rs2 <- process_entries es2 ;; Ok (rs1 ++ rs2).
Proof.
  induction es1 as [|[filename pdf_path] es1 IH]; simpl.
  - destruct (process_entries es2); reflexivity.
  - destruct (is_pdf_name filename); [|exact IH].
    destruct (process_pdf pdf_path) as [rs|e]; simpl; [|reflexivity].
    rewrite IH. destruct (process_entries es1) as [rs1|e1]; simpl; [|reflexivity].
    destruct (process_entries es2) as [rs2|e2]; simpl; [|reflexivity].
    rewrite app_assoc. reflexivity.
Qed.

Lemma process_entries_skip (e : text * node) (es : list (text * node)) :
  is_pdf_entry e = false \/ process_pdf (snd e) = Ok [] ->
  process_entries (e :: es) = process_entries es.
Proof.
  destruct e as [filename pdf_path]. unfold is_pdf_entry. simpl.
  intros [-> | H]; [reflexivity|].
  destruct (is_pdf_name filename); [|reflexivity].
  rewrite H. simpl. destruct (process_entries es); reflexivity.
Qed.

Lemma endswith_iff (p t : text) :
  endswith p t = true <-> exists u, t = u ++ p.
Proof.
  unfold endswith. split.
  - intros H. apply startswith_inv in H.
    exists (rev (skipn (length (rev p)) (rev t))).
    rewrite <- (rev_involutive p) at 2. rewrite <- rev_app_distr, <- H.
    symmetry. apply rev_involutive.
  - intros (u & ->). rewrite rev_app_distr. apply startswith_app.
Qed.

Lemma is_pdf_name_iff (filename : text) :
  is_pdf_name filename = true <->
  exists stem ext, filename = stem ++ ext /\ lower ext = str ".pdf".
Proof.
  unfold is_pdf_name. rewrite endswith_iff. split.
  - intros (u & H). unfold lower in H. apply map_eq_app in H.
    destruct H as (stem & ext & -> & _ & H). exists stem, ext. auto.
  - intros (stem & ext & -> & H). exists (lower stem).
    unfold lower in *. rewrite map_app, H. reflexivity.
Qed.

Lemma process_entries_filter (es : list (text * node)) :
  process_entries es = process_entries (filter is_pdf_entry es).
Proof.
  induction es as [|[filename pdf_path] es IH]; [reflexivity|].
  cbn [process_entries filter].
  change (is_pdf_entry (filename, pdf_path)) with (is_pdf_name filename).
  destruct (is_pdf_name filename) eqn:E; [|exact IH].
  cbn [process_entries]. rewrite E, IH. reflexivity.
Qed.

Lemma process_entries_concat (recs : text * node -> list row)
    (es : list (text * node)) :
  (forall e, In e es -> is_pdf_entry e = true -> process_pdf (snd e) = Ok (recs e)) ->
  process_entries es = Ok (flat_map recs (filter is_pdf_entry es)).
Proof.
  induction es as [|[filename pdf_path] es IH]; intros H; [reflexivity|].
  cbn [process_entries filter].
  change (is_pdf_entry (filename, pdf_path)) with (is_pdf_name filename).
  assert (IH' := IH (fun e He => H e (or_intror He))).
  destruct (is_pdf_name filename) eqn:E; [|exact IH'].
  assert (P := H (filename, pdf_path) (or_introl eq_refl) E). cbn [snd] in P.
  rewrite P, IH'. reflexivity.
Qed.

(* ================================================================== *)
(** ** The name and subject rules                                     *)
(* ================================================================== *)

Lemma after_first_here (sub t : text) :
  startswith sub t = true -> after_first sub t = Some (skipn (length sub) t).
Proof.
  intros H. destruct t as [|a t]; simpl; rewrite H; [|reflexivity].
  destruct sub; [reflexivity | discriminate].
Qed.

Lemma after_first_next (sub : text) (a : ascii) (t : text) :
  startswith sub (a :: t) = false -> after_first sub (a :: t) = after_first sub t.
Proof. intros H. simpl. rewrite H. reflexivity. Qed.

Lemma occurs_app (sub pre post : text) : occurs sub (pre ++ sub ++ post) = true.
Proof.
  unfold occurs. induction pre as [|a pre IH].
  - simpl app. rewrite after_first_here by apply startswith_app. reflexivity.
  - destruct (startswith sub ((a :: pre) ++ sub ++ post)) eqn:E.
    + rewrite after_first_here by exact E. reflexivity.
    + simpl app in *. rewrite after_first_next by exact E. exact IH.
Qed.

Lemma label_before_newline (earlier final x lab y z : text) :
  earlier ++ final = x ++ lab ++ y ++ newline :: z ->
  existsb isnewline final = false ->
  occurs lab earlier = true.
Proof.
  intros E F. rewrite 2 app_assoc in E. apply app_eq_app in E.
  destruct E as (l & [[-> _] | [_ ->]]).
  - rewrite <- !app_assoc. apply occurs_app.
  - rewrite existsb_app in F. simpl in F. rewrite orb_true_r in F. discriminate.
Qed.

(** What a match of [\s*(.+?)\n] looks like. *)
Lemma line_tail_shape (c c' : cursor) :
  matches no_flags (Rep Space 0 None true +++ Group (Rep Dot 1 None false) +++
                    Str nl) c c' ->
  exists ws cap,
    rest c = ws ++ cap ++ newline :: rest c' /\ forallb isspace ws = true /\
    cap <> [] /\ existsb isnewline cap = false /\ group1 c' = Some cap.
Proof.
  intros (c2 & (ws & (R2 & _) & _ & Hws & _) & c4 &
          (c3 & (cap & (R3 & _) & _ & Hcap & Hlen & _) & ->) & (R4 & _) & G).
  simpl in R4, G. exists ws, cap. rewrite G, (@span_app _ _ _ R3), R2, R3, R4.
  repeat split; auto.
  - destruct cap; [simpl in Hlen; lia | discriminate].
  - clear - Hcap. induction cap as [|a cap IH]; simpl in *; [reflexivity|].
    apply andb_true_iff in Hcap as [Ha Hc]. rewrite (IH Hc).
    destruct (isnewline a); [discriminate | reflexivity].
Qed.

Lemma name_shape (t : text) (m : match_obj) :
  re_search name_pattern t no_flags = Some m ->
  exists pre lab ws cap post,
    t = pre ++ lab ++ ws ++ cap ++ newline :: post /\
    (lab = str "Oficio Nro." \/ lab = str "Memorando Nro.") /\
    forallb isspace ws = true /\ cap <> [] /\
    existsb isnewline cap = false /\ group m = Some cap.
Proof.
  intros H. apply re_search_sound in H as (pre & post & -> & S & M).
  destruct (m_start m) as [sn0 rs0 g0]. injection S as -> -> ->.
  destruct M as (c1 & L & c2 & ((R2 & _) & _) & M). simpl in R2.
  apply line_tail_shape in M as (ws & cap & R & Hws & Hne & Hnl & G).
  assert (L' : exists lab, (lab = str "Oficio Nro." \/ lab = str "Memorando Nro.") /\
                 post = lab ++ rest c2).
  { destruct L as [[[R1 _] _] | [[R1 _] _]]; simpl in R1; rewrite R1, R2.
    - exists (str "Oficio Nro."). auto.
    - exists (str "Memorando Nro."). auto. }
  destruct L' as (lab & Hlab & ->).
  exists pre, lab, ws, cap, (rest (m_end m)). rewrite R. auto 10.
Qed.

Lemma subject_shape (t : text) (m : match_obj) :
  re_search subject_pattern t no_flags = Some m ->
  exists pre lab ws cap post,
    t = pre ++ lab ++ ws ++ cap ++ newline :: post /\
    (lab = str "Asunto:" \/ lab = str "ASUNTO:") /\
    forallb isspace ws = true /\ cap <> [] /\
    existsb isnewline cap = false /\ group m = Some cap.
Proof.
  intros H. apply re_search_sound in H as (pre & post & -> & S & M).
  destruct (m_start m) as [sn0 rs0 g0]. injection S as -> -> ->.
  destruct M as (c1 & L & M).
  apply line_tail_shape in M as (ws & cap & R & Hws & Hne & Hnl & G).
  assert (L' : exists lab, (lab = str "Asunto:" \/ lab = str "ASUNTO:") /\
                 post = lab ++ rest c1).
  { destruct L as [[[R1 _] _] | [[R1 _] _]]; simpl in R1; rewrite R1.
    - exists (str "Asunto:"). auto.
    - exists (str "ASUNTO:"). auto. }
  destruct L' as (lab & Hlab & ->).
  exists pre, lab, ws, cap, (rest (m_end m)). rewrite R. auto 10.
Qed.

(* ================================================================== *)
(** ** The name and subject rules: which match is found               *)
(* ================================================================== *)

(** A lazy class runs to the first position where [stop] holds, when
    every character before such a position is in the class and the
    continuation fails wherever [stop] does not hold and succeeds wherever
    it does. *)
Lemma rep_lazy_upto (A : Type) (p : ascii -> bool) (stop : text -> bool)
    (k : cursor -> option A) (g : option text) :
  (forall a s, stop (a :: s) = false -> p a = true) ->
  (forall sn a s, stop (a :: s) = false -> k (Cursor sn (a :: s) g) = None) ->
  (forall sn a s, stop (a :: s) = true -> k (Cursor sn (a :: s) g) <> None) ->
  forall body sn,
  rep p false 0 None k sn body g =
  k (Cursor (rev (take_until stop body) ++ sn) (drop_until stop body) g).
Proof.
  intros Hp Hfail Hok. induction body as [|a s IH]; intros sn; rewrite rep_eq; cbv zeta.
  - simpl. destruct (k (Cursor sn [] g)); reflexivity.
  - simpl. destruct (stop (a :: s)) eqn:E.
    + simpl. specialize (Hok sn a s E).
      destruct (k (Cursor sn (a :: s) g)); [reflexivity | congruence].
    + rewrite (Hfail sn a s E), (Hp a s E), IH, rev_cons_app. reflexivity.
Qed.

Lemma newline_is_space (a : ascii) : isnewline a = true -> isspace a = true.
Proof. intros H. apply Ascii.eqb_eq in H. subst a. reflexivity. Qed.

Lemma drop_until_newline (s : text) :
  existsb isnewline s = true ->
  exists r, drop_until (startswith nl) s = newline :: r.
Proof.
  induction s as [|a s IH]; [discriminate|]. cbn [existsb drop_until].
  rewrite startswith_nl. destruct (isnewline a) eqn:E.
  - intros _. apply Ascii.eqb_eq in E. subst a. eauto.
  - exact IH.
Qed.

(** On a text whose first line after leading whitespace is ended by a
    newline, [\s*(.+?)\n] captures that line. *)
Lemma line_tail_match (sn a : text) (g : option text) :
  existsb isnewline (lstrip a) = true ->
  exists c', mtch no_flags line_tail (fun c' => Some c') (Cursor sn a g) = Some c' /\
    group1 c' = Some (take_line (lstrip a)).
Proof.
  intros N. unfold line_tail. cbn [mtch seen rest group1].
  set (K := fun c : cursor =>
              rep (in_cset no_flags Dot) false 1 None
                (fun c' => match eat nl (capture c c') with
                           | Some c'' => Some c''
                           | None => None
                           end) (seen c) (rest c) (group1 c)).
  set (sn2 := rev (leading isspace a) ++ sn).
  assert (HK : exists c', K (Cursor sn2 (lstrip a) g) = Some c' /\
                 group1 c' = Some (take_line (lstrip a))).
  { pose proof (lstrip_stops a) as St.
    destruct (lstrip a) as [|c s]; [discriminate|]. cbn [stops] in St.
    apply negb_true_iff in St.
    assert (Cn : isnewline c = false).
    { destruct (isnewline c) eqn:E; [|reflexivity].
      rewrite (newline_is_space _ E) in St. discriminate. }
    cbn [existsb] in N. rewrite Cn in N. cbn [orb] in N.
    destruct (drop_until_newline _ N) as (r & D).
    unfold K. cbn [seen rest group1]. rewrite rep_eq. cbv zeta.
    cbn [hi_zero in_cset DOTALL no_flags orb pred option_map]. rewrite Cn. cbn [negb].
    rewrite rep_lazy_upto with (stop := startswith nl).
    - rewrite eat_spec. unfold capture at 1. cbn [rest seen group1].
      rewrite D, startswith_nl. unfold isnewline at 1. rewrite Ascii.eqb_refl.
      eexists. split; [reflexivity|]. unfold capture. cbn [group1]. f_equal.
      unfold take_line. cbn [take_until]. rewrite startswith_nl, Cn.
      apply span_app. cbn [rest]. rewrite <- D. cbn [app]. f_equal.
      apply take_drop_until.
    - intros b s' H. rewrite startswith_nl in H.
      cbn [in_cset DOTALL no_flags orb]. rewrite H. reflexivity.
    - intros sn' b s' H. rewrite eat_spec. unfold capture. cbn [rest].
      rewrite H. reflexivity.
    - intros sn' b s' H. rewrite eat_spec. unfold capture. cbn [rest].
      rewrite H. discriminate. }
  destruct HK as (c' & HK & G). exists c'. split; [|exact G].
  assert (R : forall a', a' = leading isspace a ++ lstrip a ->
            rep isspace true 0 None K sn a' g = Some c').
  { intros a' ->. apply rep_greedy_scan; auto using leading_all, lstrip_stops. lia. }
  exact (R a (leading_lstrip a)).
Qed.

(** A pattern that is one of two labels followed by [\s*(.+?)\n]. *)
Section LineField.

Variable r : regex.
Variables l1 l2 : text.

Hypothesis r_no_label : forall sn rs,
  startswith l1 rs = false -> startswith l2 rs = false ->
  mtch no_flags r (fun c' => Some c') (Cursor sn rs None) = None.
Hypothesis r_first : forall sn rs x,
  startswith l1 rs = true ->
  mtch no_flags line_tail (fun c' => Some c')
    (Cursor (rev l1 ++ sn) (skipn (length l1) rs) None) = Some x ->
  mtch no_flags r (fun c' => Some c') (Cursor sn rs None) = Some x.
Hypothesis r_second : forall sn rs x,
  startswith l1 rs = false -> startswith l2 rs = true ->
  mtch no_flags line_tail (fun c' => Some c')
    (Cursor (rev l2 ++ sn) (skipn (length l2) rs) None) = Some x ->
  mtch no_flags r (fun c' => Some c') (Cursor sn rs None) = Some x.

Lemma line_field_here (sn rs : text) (l : text) :
  (forall x,
     mtch no_flags line_tail (fun c' => Some c')
       (Cursor (rev l ++ sn) (skipn (length l) rs) None) = Some x ->
     mtch no_flags r (fun c' => Some c') (Cursor sn rs None) = Some x) ->
  existsb isnewline (lstrip (skipn (length l) rs)) = true ->
  exists m, match_at no_flags r sn rs = Some m /\
    group m = Some (take_line (lstrip (skipn (length l) rs))).
Proof.
  intros H N.
  destruct (line_tail_match (rev l ++ sn) (skipn (length l) rs) None N) as (c' & M & G).
  unfold match_at. rewrite (H _ M). eexists. split; [reflexivity | exact G].
Qed.

Lemma line_field_search (t : text) :
  forall sn,
  match after_label l1 l2 t with
  | Some a =>
      existsb isnewline (lstrip a) = true ->
      exists m, search_from no_flags r sn t = Some m /\
        group m = Some (take_line (lstrip a))
  | None => search_from no_flags r sn t = None
  end.
Proof.
  assert (None_at : forall sn rs, startswith l1 rs = false -> startswith l2 rs = false ->
            match_at no_flags r sn rs = None).
  { intros sn rs H1 H2. unfold match_at. rewrite r_no_label by assumption. reflexivity. }
  induction t as [|b t IH]; intros sn.
  - cbn [after_label search_from].
    destruct (startswith l1 []) eqn:S1; [|destruct (startswith l2 []) eqn:S2].
    + apply startswith_inv in S1. destruct l1; [|discriminate]. discriminate.
    + apply startswith_inv in S2. destruct l2; [|discriminate]. discriminate.
    + rewrite None_at by assumption. reflexivity.
  - cbn [after_label search_from].
    destruct (startswith l1 (b :: t)) eqn:S1; [|destruct (startswith l2 (b :: t)) eqn:S2].
    + intros N. destruct (@line_field_here sn (b :: t) l1) as (m & -> & G); eauto.
    + intros N. destruct (@line_field_here sn (b :: t) l2) as (m & -> & G); eauto.
    + rewrite None_at by assumption. apply IH.
Qed.

End LineField.

Lemma startswith_split (a b t : text) :
  startswith (a ++ b) t = startswith a t && startswith b (skipn (length a) t).
Proof.
  revert t. induction a as [|x a IH]; intros t; [reflexivity|].
  destruct t as [|y t]; [reflexivity|]. cbn [app startswith length skipn].
  rewrite IH. apply andb_assoc.
Qed.

Lemma oficio_not_memorando (t : text) :
  startswith (str "Oficio") t = true -> startswith (str "Memorando") t = false.
Proof.
  destruct t as [|c t]; [discriminate|].
  cbn [str list_ascii_of_string startswith]. intros H.
  apply andb_true_iff in H as [H _]. apply Ascii.eqb_eq in H. subst c. reflexivity.
Qed.

Lemma asunto_not_ASUNTO (t : text) :
  startswith (str "Asunto:") t = true -> startswith (str "ASUNTO:") t = false.
Proof.
  destruct t as [|c [|c' t]]; cbn [str list_ascii_of_string startswith]; intros H.
  - discriminate.
  - rewrite andb_false_r in H. discriminate.
  - apply andb_true_iff in H as [_ H]. apply andb_true_iff in H as [H _].
    apply Ascii.eqb_eq in H. subst c'. apply andb_false_iff. right. reflexivity.
Qed.

(** The name pattern at one position: which label stands there decides. *)
Lemma name_pattern_at (sn rs : text) :
  mtch no_flags name_pattern (fun c' => Some c') (Cursor sn rs None) =
  if startswith (str "Oficio Nro.") rs
  then mtch no_flags line_tail (fun c' => Some c')
         (Cursor (rev (str "Oficio Nro.") ++ sn) (skipn 11 rs) None)
  else if startswith (str "Memorando Nro.") rs
  then mtch no_flags line_tail (fun c' => Some c')
         (Cursor (rev (str "Memorando Nro.") ++ sn) (skipn 14 rs) None)
  else None.
Proof.
  change (str "Oficio Nro.") with (str "Oficio" ++ str " Nro.").
  change (str "Memorando Nro.") with (str "Memorando" ++ str " Nro.").
  rewrite !startswith_split. unfold name_pattern.
  change (Rep Space 0 None true +++ Group (Rep Dot 1 None false) +++ Str nl)
    with line_tail.
  cbn [mtch]. rewrite !eat_spec. cbn [rest seen group1].
  destruct (startswith (str "Oficio") rs) eqn:O.
  - rewrite (oficio_not_memorando _ O). cbn [andb].
    rewrite eat_spec. cbn [rest seen group1].
    destruct (startswith (str " Nro.") (skipn (length (str "Oficio")) rs)); [|reflexivity].
    rewrite skipn_skipn, rev_app_distr, <- app_assoc.
    change (length (str " Nro.") + length (str "Oficio")) with 11.
    destruct (mtch no_flags line_tail _ _); reflexivity.
  - cbn [andb]. destruct (startswith (str "Memorando") rs); [|reflexivity].
    cbn [andb]. rewrite eat_spec. cbn [rest seen group1].
    destruct (startswith (str " Nro.") (skipn (length (str "Memorando")) rs));
      [|reflexivity].
    rewrite skipn_skipn, rev_app_distr, <- app_assoc. reflexivity.
Qed.

Lemma subject_pattern_at (sn rs : text) :
  mtch no_flags subject_pattern (fun c' => Some c') (Cursor sn rs None) =
  if startswith (str "Asunto:") rs
  then mtch no_flags line_tail (fun c' => Some c')
         (Cursor (rev (str "Asunto:") ++ sn) (skipn 7 rs) None)
  else if startswith (str "ASUNTO:") rs
  then mtch no_flags line_tail (fun c' => Some c')
         (Cursor (rev (str "ASUNTO:") ++ sn) (skipn 7 rs) None)
  else None.
Proof.
  unfold subject_pattern.
  change (Rep Space 0 None true +++ Group (Rep Dot 1 None false) +++ Str nl)
    with line_tail.
  cbn [mtch]. rewrite !eat_spec. cbn [rest seen group1].
  destruct (startswith (str "Asunto:") rs) eqn:A.
  - rewrite (asunto_not_ASUNTO _ A).
    destruct (mtch no_flags line_tail _ _); reflexivity.
  - destruct (startswith (str "ASUNTO:") rs); reflexivity.
Qed.

Lemma name_search (t : text) :
  match after_label (str "Oficio Nro.") (str "Memorando Nro.") t with
  | Some a =>
      existsb isnewline (lstrip a) = true ->
      exists m, re_search name_pattern t no_flags = Some m /\
        group m = Some (take_line (lstrip a))
  | None => re_search name_pattern t no_flags = None
  end.
Proof.
  apply line_field_search; intros sn rs.
  - intros H1 H2. rewrite name_pattern_at, H1, H2. reflexivity.
  - intros x H1 M. rewrite name_pattern_at, H1. exact M.
  - intros x H1 H2 M. rewrite name_pattern_at, H1, H2. exact M.
Qed.

Lemma subject_search (t : text) :
  match after_label (str "Asunto:") (str "ASUNTO:") t with
  | Some a =>
      existsb isnewline (lstrip a) = true ->
      exists m, re_search subject_pattern t no_flags = Some m /\
        group m = Some (take_line (lstrip a))
  | None => re_search subject_pattern t no_flags = None
  end.
Proof.
  apply line_field_search; intros sn rs.
  - intros H1 H2. rewrite subject_pattern_at, H1, H2. reflexivity.
  - intros x H1 M. rewrite subject_pattern_at, H1. exact M.
  - intros x H1 H2 M. rewrite subject_pattern_at, H1, H2. exact M.
Qed.

(* ================================================================== *)
(** ** Failed matches                                                 *)
(* ================================================================== *)

Lemma not_found_none (o : option match_obj) : negb (found o) = true -> o = None.
Proof. destruct o; [discriminate | reflexivity]. Qed.

Lemma date_none (t : text) :
  re_search date_pattern t no_flags = None -> date t = Ok (str "No encontrada").
Proof.
  intros E. unfold date. rewrite extract_field_with_regex_none by exact E.
  reflexivity.
Qed.

Lemma references_none (t : text) :
  re_search references_pattern t re_DOTALL = None ->
  references t = Ok (str "No encontradas").
Proof. intros E. unfold references. rewrite E. reflexivity. Qed.

Lemma annexes_none (t : text) :
  match_fails FAnexo t = true -> annexes t = Ok [].
Proof.
  unfold match_fails, annexes.
  destruct (re_search annexes_section_pattern t re_DOTALL) as [m|]; [|reflexivity].
  destruct (group m) as [section|]; [|discriminate].
  destruct (re_findall annex_pattern section re_MULTILINE); [reflexivity | discriminate].
Qed.

Lemma subject_label_missing (t : text) :
  occurs (str "Asunto:") t = false -> occurs (str "ASUNTO:") t = false ->
  re_search subject_pattern t no_flags = None.
Proof.
  intros O1 O2.
  destruct (re_search subject_pattern t no_flags) as [m|] eqn:E; [|reflexivity].
  apply subject_shape in E as (pre & lab & ws & cap & post & -> & Hlab & _).
  destruct Hlab as [-> | ->]; rewrite occurs_app in *; discriminate.
Qed.

Lemma rows_but_subject (n d s s' r : text) (anx : list text) :
  map but_subject (rows n d s r anx) = map but_subject (rows n d s' r anx).
Proof.
  unfold rows. destruct anx as [|a anx]; [reflexivity|].
  cbn [map]. f_equal.
  induction anx as [|b anx IH]; cbn [map]; [reflexivity|].
  rewrite IH. reflexivity.
Qed.

Lemma extract_ok_inv (t : text) (rs : list row) :
  extract t = Ok rs ->
  exists n d s r a, doc_name t = Ok n /\ date t = Ok d /\ subject t = Ok s /\
    references t = Ok r /\ annexes t = Ok a /\ rs = rows n d s r a.
Proof.
  intros E. pose proof (extract_date t) as X.
  destruct (date t) as [d|e] eqn:D; [|congruence].
  destruct X as (n & s & r & a & Hn & Hs & Hr & Ha & He).
  exists n, d, s, r, a. rewrite He in E. injection E as <-. auto 10.
Qed.

Lemma extract_raise_inv (t : text) (e : exn) :
  extract t = Raise e -> date t = Raise e.
Proof.
  intros E. pose proof (extract_date t) as X.
  destruct (date t) as [d|e'] eqn:D; [|congruence].
  destruct X as (n & s & r & a & _ & _ & _ & _ & He). congruence.
Qed.

Lemma references_eq (t : text) :
  references t =
  Ok match after_first (str "Referencias:") t with
     | Some a =>
         match reference_list (take_line (lstrip a)) with
         | [] => str "No encontradas"
         | l => join (str ", ") l
         end
     | None => str "No encontradas"
     end.
Proof.
  unfold references. pose proof (references_search t) as S.
  destruct (after_first (str "Referencias:") t) as [a|].
  - destruct S as (m & -> & ->). unfold reference_list, bind.
    destruct (filter nonempty (map strip (split (str "- ") (take_line (lstrip a)))));
      reflexivity.
  - rewrite S. reflexivity.
Qed.

(* ================================================================== *)
(** ** The annex items                                                *)
(* ================================================================== *)

Lemma annexes_eq (t : text) :
  annexes t =
  Ok match after_first (str "Anexos:") t with
     | Some a => re_findall annex_pattern (upto_blank (lstrip a)) re_MULTILINE
     | None => []
     end.
Proof.
  unfold annexes. pose proof (annexes_section_search t) as S.
  destruct (after_first (str "Anexos:") t) as [a|].
  - destruct S as (m & -> & ->). reflexivity.
  - rewrite S. reflexivity.
Qed.

Lemma findall_skip (fl : flags) (r : regex) (w : text) :
  forall sn rs,
  findall_from fl r (length w) sn (w ++ rs) = findall_from fl r 0 (rev w ++ sn) rs.
Proof.
  induction w as [|a w IH]; intros sn rs; [reflexivity|].
  cbn [length app findall_from]. rewrite IH, rev_cons_app. reflexivity.
Qed.

Lemma findall_from_none (fl : flags) (r : regex) (sn : text) (a : ascii) (rs : text) :
  match_at fl r sn (a :: rs) = None ->
  findall_from fl r 0 sn (a :: rs) = findall_from fl r 0 (a :: sn) rs.
Proof. intros H. cbn [findall_from]. rewrite H. reflexivity. Qed.

Lemma findall_from_end (fl : flags) (r : regex) (sn : text) :
  match_at fl r sn [] = None -> findall_from fl r 0 sn [] = [].
Proof. intros H. cbn [findall_from]. rewrite H. reflexivity. Qed.

Lemma annex_match_not_bol (a : ascii) (sn rs : text) :
  isnewline a = false ->
  match_at re_MULTILINE annex_pattern (a :: sn) rs = None.
Proof.
  intros H. unfold match_at, annex_pattern. cbn [mtch]. unfold at_bol.
  cbn [seen MULTILINE re_MULTILINE andb]. rewrite H. reflexivity.
Qed.

Lemma annex_match_not_hyphen (sn rs : text) :
  startswith (str "-") rs = false ->
  match_at re_MULTILINE annex_pattern sn rs = None.
Proof.
  intros H. unfold match_at, annex_pattern. cbn [mtch].
  destruct (at_bol re_MULTILINE (Cursor sn rs None)); [|reflexivity].
  rewrite eat_spec. cbn [rest]. rewrite H. reflexivity.
Qed.

(** Inside a line the item pattern matches nowhere but at its start. *)
Lemma findall_skip_line (w : text) :
  forall sn rs,
  forallb not_newline w = true ->
  match_at re_MULTILINE annex_pattern sn (w ++ rs) = None ->
  findall_from re_MULTILINE annex_pattern 0 sn (w ++ rs) =
  findall_from re_MULTILINE annex_pattern 0 (rev w ++ sn) rs.
Proof.
  induction w as [|a w IH]; intros sn rs W H; [reflexivity|].
  cbn [forallb] in W. apply andb_true_iff in W as [Wa W].
  cbn [app] in *. rewrite findall_from_none by exact H.
  rewrite rev_cons_app. apply IH; [exact W|].
  apply annex_match_not_bol. unfold not_newline in Wa.
  apply negb_true_iff. exact Wa.
Qed.

Lemma stops_app (p : ascii -> bool) (s u : text) :
  s <> [] -> stops p (s ++ u) = stops p s.
Proof. destruct s; [congruence | reflexivity]. Qed.

(** At the start of a line that reads hyphen, whitespace, then a body that
    begins with something else, the item pattern matches the line and
    captures the body. *)
Lemma annex_match_line (sn ws body T : text) :
  at_bol re_MULTILINE (Cursor sn (hyphen :: ws ++ body ++ T) None) = true ->
  forallb isspace ws = true -> body <> [] -> stops isspace body = true ->
  forallb not_newline body = true -> stops not_newline T = true ->
  match_at re_MULTILINE annex_pattern sn (hyphen :: ws ++ body ++ T) =
  Some (Match (Cursor sn (hyphen :: ws ++ body ++ T) None)
              (Cursor (rev body ++ rev ws ++ hyphen :: sn) T (Some body))).
Proof.
  intros B Hws Hne Hb Hnl HT.
  unfold match_at, annex_pattern. cbn [mtch]. rewrite B, eat_spec.
  cbn [rest seen group1]. change (str "-") with [hyphen].
  cbn [startswith length skipn rev app]. rewrite Ascii.eqb_refl. cbn [andb].
  set (c2 := Cursor (rev ws ++ hyphen :: sn) (body ++ T) None).
  set (c3 := Cursor (rev body ++ rev ws ++ hyphen :: sn) T None).
  set (cf := Cursor (rev body ++ rev ws ++ hyphen :: sn) T (Some body)).
  assert (A : mtch re_MULTILINE Eol (fun c' => Some c') (capture c2 c3) = Some cf).
  { cbn [mtch]. unfold at_eol, capture. cbn [rest seen MULTILINE re_MULTILINE orb].
    unfold cf. rewrite (@span_app c2 c3 body) by reflexivity.
    unfold c3. cbn [rest seen].
    destruct T as [|a T]; [reflexivity|]. cbn [stops] in HT.
    unfold not_newline in HT. rewrite negb_involutive in HT. rewrite HT. reflexivity. }
  assert (K : mtch re_MULTILINE (Group (Rep Dot 1 None true) +++ Eol)
                (fun c' => Some c') c2 = Some cf).
  { cbn [mtch]. unfold c2 at 2 3 4. cbn [rest seen group1].
    apply rep_greedy_scan; auto.
    - destruct body; [congruence | simpl; lia]. }
  cbn [rest seen group1].
  rewrite rep_greedy_scan with (x := cf); [reflexivity|exact Hws| |cbn; lia|exact K].
  rewrite stops_app by exact Hne. exact Hb.
Qed.

Lemma startswith_hyphen (s : text) :
  startswith (str "-") s = true -> exists r, s = hyphen :: r.
Proof.
  destruct s as [|c r]; [discriminate|]. change (str "-") with [hyphen].
  cbn [startswith]. rewrite andb_true_r. intros H. apply Ascii.eqb_eq in H.
  subst c. eauto.
Qed.

Lemma startswith_hyphen_app (line T : text) :
  startswith (str "-") line = false -> stops not_newline T = true ->
  startswith (str "-") (line ++ T) = false.
Proof.
  intros H HT. destruct line as [|c l]; [|exact H]. cbn [app].
  destruct T as [|a T]; [reflexivity|]. cbn [stops] in HT.
  unfold not_newline in HT. rewrite negb_involutive in HT.
  apply Ascii.eqb_eq in HT. subst a. reflexivity.
Qed.

(** One line of the section, followed by the end of the text or by a
    newline: what [findall] reports for it, and where it goes on. *)
Lemma findall_one_line (line T sn : text) :
  at_bol re_MULTILINE (Cursor sn (line ++ T) None) = true ->
  ok_line line = true -> stops not_newline T = true ->
  findall_from re_MULTILINE annex_pattern 0 sn (line ++ T) =
  item_of_line line ++ findall_from re_MULTILINE annex_pattern 0 (rev line ++ sn) T.
Proof.
  intros B Hok HT. unfold ok_line in Hok. apply andb_true_iff in Hok as [Hnl Hok].
  unfold item_of_line. destruct (startswith (str "-") line) eqn:Hh.
  - apply startswith_hyphen in Hh as (r & ->). cbn [negb orb tl] in Hok.
    cbn [forallb] in Hnl. apply andb_true_iff in Hnl as [_ Hnl].
    assert (Hne : lstrip r <> []) by (destruct (lstrip r); [discriminate | congruence]).
    assert (Hb : forallb not_newline (lstrip r) = true).
    { rewrite (leading_lstrip r), forallb_app in Hnl.
      apply andb_true_iff in Hnl. apply Hnl. }
    pose proof (@annex_match_line sn (leading isspace r) (lstrip r) T) as M.
    specialize (M B (leading_all _ _) Hne (lstrip_stops _) Hb HT).
    rewrite app_assoc, <- leading_lstrip in M.
    cbn [app findall_from]. rewrite M.
    unfold findall_item, group0, group. cbn [ngroups annex_pattern plus m_end m_start group1].
    rewrite (@span_app _ _ (hyphen :: r)) by reflexivity.
    cbn [length Nat.sub]. rewrite Nat.sub_0_r, findall_skip, rev_cons_app.
    reflexivity.
  - cbn [app]. apply findall_skip_line; [exact Hnl|].
    apply annex_match_not_hyphen, startswith_hyphen_app; assumption.
Qed.

(** [findall] of the item pattern over a section made of such lines. *)
Lemma findall_lines (lines : list text) :
  forall sn,
  at_bol re_MULTILINE (Cursor sn [] None) = true ->
  forallb ok_line lines = true ->
  findall_from re_MULTILINE annex_pattern 0 sn (join nl lines) =
  flat_map item_of_line lines.
Proof.
  induction lines as [|l ls IH]; intros sn B Hok.
  - apply findall_from_end, annex_match_not_hyphen. reflexivity.
  - cbn [forallb] in Hok. apply andb_true_iff in Hok as [Hl Hls].
    cbn [flat_map]. destruct ls as [|l2 ls].
    + cbn [join flat_map]. rewrite <- (app_nil_r l) at 1.
      rewrite findall_one_line; auto.
      rewrite findall_from_end by (apply annex_match_not_hyphen; reflexivity).
      reflexivity.
    + change (join nl (l :: l2 :: ls)) with (l ++ newline :: join nl (l2 :: ls)).
      rewrite findall_one_line; auto. f_equal.
      rewrite findall_from_none by (apply annex_match_not_hyphen; reflexivity).
      apply IH; auto.
Qed.

(* ================================================================== *)
(** ** Character classes                                              *)
(* ================================================================== *)

Lemma space_not_word : forall a, isspace a = true -> isword a = false.
Proof. each_char. Qed.

Lemma digit_is_word : forall a, isdigit a = true -> isword a = true.
Proof. each_char. Qed.

Lemma letter_is_word : forall a, isletter a = true -> isword a = true.
Proof. each_char. Qed.

Lemma letter_not_digit : forall a, isletter a = true -> isdigit a = false.
Proof. each_char. Qed.

Lemma lower_letter : forall a, isletter (lower_char a) = true -> isletter a = true.
Proof. each_char. Qed.

Lemma lower_digit : forall a, isdigit a = true -> lower_char a = a.
Proof. each_char. Qed.

Lemma not_word_not_digit (a : ascii) : isword a = false -> isdigit a = false.
Proof.
  intros H. destruct (isdigit a) eqn:D; [|reflexivity].
  rewrite (digit_is_word _ D) in H. discriminate.
Qed.

Lemma space_not_digit (a : ascii) : isspace a = true -> isdigit a = false.
Proof. intros H. apply not_word_not_digit, space_not_word, H. Qed.

(* ================================================================== *)
(** ** The date rule                                                  *)
(* ================================================================== *)

Lemma run_inv (p : ascii -> bool) (s : text) :
  nonempty s && forallb p s = true ->
  exists a s', s = a :: s' /\ p a = true /\ forallb p s' = true.
Proof.
  destruct s as [|a s']; [discriminate|]. cbn [nonempty andb forallb].
  intros H. apply andb_true_iff in H as [Ha Hs]. eauto.
Qed.

Lemma rep_fail_head (A : Type) (p : ascii -> bool) (greedy : bool) (lo : nat)
    (hi : option nat) (k : cursor -> option A) (sn rs : text) (g : option text) :
  stops p rs = true -> rep p greedy (S lo) hi k sn rs g = None.
Proof.
  intros H. rewrite rep_eq. cbv zeta. destruct (hi_zero hi); [reflexivity|].
  destruct rs as [|a rs]; [reflexivity|]. cbn [stops] in H.
  apply negb_true_iff in H. rewrite H. reflexivity.
Qed.

Lemma token_digits (sn D rs : text) :
  digits D = true -> stops isdigit rs = true ->
  match_at no_flags date_parts_pattern sn (D ++ rs) =
  Some (Match (Cursor sn (D ++ rs) None) (Cursor (rev D ++ sn) rs None)).
Proof.
  intros HD Hs. apply run_inv in HD as (a & D' & -> & Ha & HD').
  unfold match_at, date_parts_pattern. cbn [mtch seen rest group1].
  rewrite rep_greedy_scan with (x := Cursor (rev (a :: D') ++ sn) rs None);
    [reflexivity| |exact Hs|cbn; lia|reflexivity].
  cbn [forallb in_cset]. rewrite Ha. exact HD'.
Qed.

Lemma token_word (sn W rs : text) :
  word W = true -> stops isdigit W = true -> stops isword rs = true ->
  match_at no_flags date_parts_pattern sn (W ++ rs) =
  Some (Match (Cursor sn (W ++ rs) None) (Cursor (rev W ++ sn) rs None)).
Proof.
  intros HW Hd Hs. apply run_inv in HW as (a & W' & -> & Ha & HW').
  unfold match_at, date_parts_pattern. cbn [mtch seen rest group1].
  rewrite rep_fail_head by (rewrite stops_app by discriminate; exact Hd).
  rewrite rep_greedy_scan with (x := Cursor (rev (a :: W') ++ sn) rs None);
    [reflexivity| |exact Hs|cbn; lia|reflexivity].
  cbn [forallb in_cset]. rewrite Ha. exact HW'.
Qed.

Lemma token_none (sn rs : text) :
  stops isword rs = true -> match_at no_flags date_parts_pattern sn rs = None.
Proof.
  intros Hs. unfold match_at, date_parts_pattern. cbn [mtch seen rest group1].
  rewrite rep_fail_head, rep_fail_head; [reflexivity|exact Hs|].
  destruct rs as [|a rs]; [reflexivity|]. cbn [stops] in *.
  apply negb_true_iff in Hs. apply negb_true_iff, not_word_not_digit, Hs.
Qed.

(** [findall] passes over a match without a group and reports its text. *)
Lemma findall_token (fl : flags) (r : regex) (sn w rs : text) (g : option text) :
  ngroups r = 0 -> w <> [] ->
  match_at fl r sn (w ++ rs) =
    Some (Match (Cursor sn (w ++ rs) None) (Cursor (rev w ++ sn) rs g)) ->
  findall_from fl r 0 sn (w ++ rs) = w :: findall_from fl r 0 (rev w ++ sn) rs.
Proof.
  intros N Hw M. destruct w as [|a w]; [congruence|].
  cbn [app findall_from]. cbn [app] in M. rewrite M.
  unfold findall_item, group0. rewrite N. cbn [m_start m_end].
  rewrite (@span_app _ _ (a :: w)) by reflexivity.
  cbn [length Nat.sub]. rewrite Nat.sub_0_r, findall_skip, rev_cons_app.
  reflexivity.
Qed.

Lemma findall_spaces (ws : text) :
  forall sn rs, forallb isspace ws = true ->
  findall_from no_flags date_parts_pattern 0 sn (ws ++ rs) =
  findall_from no_flags date_parts_pattern 0 (rev ws ++ sn) rs.
Proof.
  induction ws as [|a ws IH]; intros sn rs H; [reflexivity|].
  cbn [forallb] in H. apply andb_true_iff in H as [Ha H]. cbn [app].
  rewrite findall_from_none, rev_cons_app; [apply IH; exact H|].
  apply token_none. cbn [stops]. rewrite (space_not_word _ Ha). reflexivity.
Qed.

Lemma stops_spaces (p : ascii -> bool) (s rs : text) :
  (forall a, isspace a = true -> p a = false) ->
  spaces s = true -> stops p (s ++ rs) = true.
Proof.
  intros Hp H. apply run_inv in H as (a & s' & -> & Ha & _).
  cbn [app stops]. rewrite (Hp a Ha). reflexivity.
Qed.

(** A number followed by whitespace is one token. *)
Lemma findall_digits_spaces (sn D s rs : text) :
  digits D = true -> spaces s = true ->
  findall_from no_flags date_parts_pattern 0 sn (D ++ s ++ rs) =
  D :: findall_from no_flags date_parts_pattern 0 (rev s ++ rev D ++ sn) rs.
Proof.
  intros HD Hs. rewrite findall_token with (g := None).
  - rewrite findall_spaces; [reflexivity|].
    unfold spaces in Hs. apply andb_true_iff in Hs. apply Hs.
  - reflexivity.
  - destruct D; [discriminate | congruence].
  - apply token_digits; [exact HD|]. apply stops_spaces; [apply space_not_digit | exact Hs].
Qed.

(** A word that does not begin with a digit, followed by whitespace, is one
    token. *)
Lemma findall_word_spaces (sn W s rs : text) :
  word W = true -> stops isdigit W = true -> spaces s = true ->
  findall_from no_flags date_parts_pattern 0 sn (W ++ s ++ rs) =
  W :: findall_from no_flags date_parts_pattern 0 (rev s ++ rev W ++ sn) rs.
Proof.
  intros HW Hd Hs. rewrite findall_token with (g := None).
  - rewrite findall_spaces; [reflexivity|].
    unfold spaces in Hs. apply andb_true_iff in Hs. apply Hs.
  - reflexivity.
  - destruct W; [discriminate | congruence].
  - apply token_word; [exact HW|exact Hd|].
    apply stops_spaces; [apply space_not_word | exact Hs].
Qed.

Lemma findall_digits_end (sn D : text) :
  digits D = true ->
  findall_from no_flags date_parts_pattern 0 sn D = [D].
Proof.
  intros HD. rewrite <- (app_nil_r D) at 1. rewrite findall_token with (g := None).
  - rewrite findall_from_end by (apply token_none; reflexivity). reflexivity.
  - reflexivity.
  - destruct D; [discriminate | congruence].
  - apply token_digits; [exact HD | reflexivity].
Qed.

Lemma getitem_in (d : list (text * text)) (key v : text) :
  getitem d key = Ok v -> In (key, v) d.
Proof.
  induction d as [|[k v'] d IH]; simpl; [discriminate|].
  destruct (text_eqb k key) eqn:E.
  - apply text_eqb_eq in E. intros H. injection H as ->. left. congruence.
  - intros H. right. apply IH, H.
Qed.

Lemma getitem_raise (d : list (text * text)) (key : text) (e : exn) :
  getitem d key = Raise e -> e = KeyError key.
Proof.
  induction d as [|[k v'] d IH]; simpl; [congruence|].
  destruct (text_eqb k key); [discriminate | exact IH].
Qed.

(** The keys of the table are lower-case ASCII words and its values two
    digits. *)
Lemma months_entries (key v : text) :
  In (key, v) months ->
  nonempty key && forallb isletter key = true /\
  forallb isdigit v = true /\ length v = 2.
Proof.
  unfold months. cbn [In]. intros H.
  repeat (destruct H as [H | H]; [injection H as <- <-; repeat split|]).
  destruct H.
Qed.

Lemma lower_letters (w : text) :
  forallb isletter (lower w) = true -> forallb isletter w = true.
Proof.
  induction w as [|a w IH]; [reflexivity|]. cbn [lower map forallb].
  intros H. apply andb_true_iff in H as [Ha H].
  rewrite (lower_letter _ Ha). apply IH, H.
Qed.

(** A word that lower-cases to a key of the table is made of ASCII
    letters. *)
Lemma month_word (w mm : text) :
  getitem months (lower w) = Ok mm ->
  word w = true /\ stops isdigit w = true /\
  forallb isdigit mm = true /\ length mm = 2.
Proof.
  intros H. apply getitem_in, months_entries in H as (K & V & L).
  apply andb_true_iff in K as [Kn Kl]. apply lower_letters in Kl.
  destruct w as [|a w]; [discriminate|]. cbn [forallb] in Kl.
  apply andb_true_iff in Kl as [Ha Kl]. repeat split; auto.
  - unfold word. cbn [nonempty forallb andb]. rewrite (letter_is_word _ Ha).
    clear - Kl. induction w as [|b w IH]; [reflexivity|]. cbn [forallb] in *.
    apply andb_true_iff in Kl as [Hb Kl]. rewrite (letter_is_word _ Hb). auto.
  - cbn [stops]. rewrite (letter_not_digit _ Ha). reflexivity.
Qed.

(** A number is no key of the table. *)
Lemma number_not_month (p : text) :
  digits p = true -> getitem months (lower p) = Raise (KeyError (lower p)).
Proof.
  intros H. destruct (getitem months (lower p)) as [mm|e] eqn:G.
  - exfalso. apply month_word in G as (_ & S & _).
    apply run_inv in H as (a & p' & -> & Ha & _). cbn [stops] in S.
    rewrite Ha in S. discriminate.
  - f_equal. apply (getitem_raise _ _ G).
Qed.

(** The parts of a date text whose month is a word without digits. *)
Lemma date_parts_plain (d s1 s2 w s3 s4 y : text) :
  digits d = true -> spaces s1 = true -> spaces s2 = true ->
  word w = true -> stops isdigit w = true ->
  spaces s3 = true -> spaces s4 = true -> digits y = true ->
  re_findall date_parts_pattern (date_text d s1 s2 w s3 s4 y) no_flags =
  [d; str "de"; w; str "de"; y].
Proof.
  intros Hd H1 H2 Hw Hwd H3 H4 Hy. unfold re_findall, date_text.
  rewrite findall_digits_spaces by assumption.
  rewrite findall_word_spaces by (assumption || reflexivity).
  rewrite findall_word_spaces by assumption.
  rewrite findall_word_spaces by (assumption || reflexivity).
  rewrite findall_digits_end by assumption. reflexivity.
Qed.

Lemma leading_split (p : ascii -> bool) (s : text) :
  exists r, s = leading p s ++ r /\ stops p r = true.
Proof.
  induction s as [|a s (r & E & S)]; [exists []; auto|]. cbn [leading].
  destruct (p a) eqn:Pa.
  - exists r. cbn [app]. rewrite <- E. auto.
  - exists (a :: s). cbn [app stops]. rewrite Pa. auto.
Qed.

(** The parts of any date text: the day, ["de"], and then the month word,
    or the number it begins with. *)
Lemma date_parts_any (d s1 s2 w s3 s4 y : text) :
  digits d = true -> spaces s1 = true -> spaces s2 = true ->
  word w = true -> spaces s3 = true ->
  exists p more,
    re_findall date_parts_pattern (date_text d s1 s2 w s3 s4 y) no_flags =
      d :: str "de" :: p :: more /\
    (p = w /\ stops isdigit w = true \/ digits p = true).
Proof.
  intros Hd H1 H2 Hw H3. unfold re_findall, date_text.
  rewrite findall_digits_spaces by assumption.
  rewrite findall_word_spaces by (assumption || reflexivity).
  destruct (stops isdigit w) eqn:Hwd.
  - rewrite findall_word_spaces by assumption.
    do 2 eexists. split; [reflexivity | left; auto].
  - destruct (leading_split isdigit w) as (r & E & S).
    assert (HD : digits (leading isdigit w) = true).
    { unfold digits. rewrite leading_all, andb_true_r.
      destruct w as [|a w]; [discriminate|]. cbn [stops] in Hwd.
      apply negb_false_iff in Hwd. cbn [leading]. rewrite Hwd. reflexivity. }
    remember (leading isdigit w) as D eqn:HeqD. clear HeqD Hwd. subst w.
    rewrite <- app_assoc.
    rewrite findall_token with (g := None);
      [do 2 eexists; split; [reflexivity | right; exact HD]|reflexivity| |].
    + destruct D; [discriminate | congruence].
    + apply token_digits; [exact HD|].
      destruct r as [|b r]; [|exact S]. cbn [app].
      apply stops_spaces; [apply space_not_digit | exact H3].
Qed.

Lemma run_intro (p : ascii -> bool) (s : text) :
  1 <= length s -> forallb p s = true -> nonempty s && forallb p s = true.
Proof.
  intros L H. rewrite H. destruct s; [simpl in L; lia | reflexivity].
Qed.

(** What a match of the date pattern looks like. *)
Lemma date_shape (t : text) (m : match_obj) :
  re_search date_pattern t no_flags = Some m ->
  exists d s1 s2 w s3 s4 y,
    group m = Some (date_text d s1 s2 w s3 s4 y) /\
    digits d = true /\ length d <= 2 /\ spaces s1 = true /\ spaces s2 = true /\
    word w = true /\ spaces s3 = true /\ spaces s4 = true /\
    digits y = true /\ length y = 4.
Proof.
  intros H. apply re_search_sound in H as (pre & post & _ & _ & M).
  destruct M as (c9 & M & E).
  destruct M as (c1 & (d & (Rd & _) & _ & Hd & Ld & Ud) & M).
  destruct M as (c2 & (s1 & (R1 & _) & _ & H1 & L1 & _) & M).
  destruct M as (c3 & ((Re1 & _) & _) & M).
  destruct M as (c4 & (s2 & (R2 & _) & _ & H2 & L2 & _) & M).
  destruct M as (c5 & (w & (Rw & _) & _ & Hw & Lw & _) & M).
  destruct M as (c6 & (s3 & (R3 & _) & _ & H3 & L3 & _) & M).
  destruct M as (c7 & ((Re2 & _) & _) & M).
  destruct M as (c8 & (s4 & (R4 & _) & _ & H4 & L4 & _) & M).
  destruct M as (y & (Ry & _) & _ & Hy & Ly & Uy).
  exists d, s1, s2, w, s3, s4, y.
  unfold group. rewrite E. cbn [capture group1].
  rewrite (@span_app _ _ (date_text d s1 s2 w s3 s4 y)).
  - specialize (Ud 2 eq_refl). specialize (Uy 4 eq_refl).
    change (in_cset no_flags Digit) with isdigit in *.
    change (in_cset no_flags Space) with isspace in *.
    change (in_cset no_flags Word) with isword in *.
    unfold digits, spaces, word.
    repeat split; try (apply run_intro; [lia | assumption]); lia.
  - unfold date_text. rewrite Rd, R1, Re1, R2, Rw, R3, Re2, R4, Ry, <- !app_assoc.
    reflexivity.
Qed.

Lemma lstrip_id (s : text) : stops isspace s = true -> lstrip s = s.
Proof.
  destruct s as [|a s]; [reflexivity|]. cbn [stops lstrip]. intros H.
  apply negb_true_iff in H. rewrite H. reflexivity.
Qed.

Lemma strip_id (s : text) :
  stops isspace s = true -> stops isspace (rev s) = true -> strip s = s.
Proof.
  intros H1 H2. unfold strip, rstrip. rewrite (lstrip_id _ H1), (lstrip_id _ H2).
  apply rev_involutive.
Qed.

Lemma digit_not_space (a : ascii) : isdigit a = true -> isspace a = false.
Proof.
  intros H. destruct (isspace a) eqn:S; [|reflexivity].
  rewrite (space_not_digit _ S) in H. discriminate.
Qed.

Lemma digits_stops_space (s u : text) :
  digits s = true -> stops isspace (s ++ u) = true.
Proof.
  intros H. apply run_inv in H as (a & s' & -> & Ha & _). cbn [app stops].
  rewrite (digit_not_space _ Ha). reflexivity.
Qed.

Lemma digits_rev (s : text) : digits s = true -> digits (rev s) = true.
Proof.
  unfold digits. intros H. apply andb_true_iff in H as [N A].
  apply andb_true_iff. split.
  - destruct s as [|a s]; [discriminate|]. cbn [rev].
    destruct (rev s); reflexivity.
  - apply forallb_forall. intros x Hx. apply in_rev in Hx.
    rewrite forallb_forall in A. apply A, Hx.
Qed.

(** The date text is what [strip] leaves of it, and is not the sentinel of
    [extract_field_with_regex]. *)
Lemma date_text_strip (d s1 s2 w s3 s4 y : text) :
  digits d = true -> digits y = true ->
  strip (date_text d s1 s2 w s3 s4 y) = date_text d s1 s2 w s3 s4 y /\
  text_eqb (date_text d s1 s2 w s3 s4 y) (str "No encontrado") = false.
Proof.
  intros Hd Hy. split.
  - apply strip_id.
    + apply digits_stops_space, Hd.
    + unfold date_text. rewrite !app_assoc, rev_app_distr.
      apply digits_stops_space, digits_rev, Hy.
  - apply run_inv in Hd as (a & d' & -> & Ha & _). unfold date_text.
    cbn [app str list_ascii_of_string text_eqb].
    destruct (Ascii.eqb_spec a "N"%char) as [-> | _]; [discriminate | reflexivity].
Qed.

(** The date rule on a text in which the pattern matches. *)
Lemma date_eval (t : text) (m : match_obj) (d s1 s2 w s3 s4 y : text) :
  re_search date_pattern t no_flags = Some m ->
  group m = Some (date_text d s1 s2 w s3 s4 y) ->
  digits d = true -> digits y = true ->
  date t =
  let date_parts :=
    re_findall date_parts_pattern (date_text d s1 s2 w s3 s4 y) no_flags in
  d' <- index date_parts 0 ;;
  p <- index date_parts 2 ;;
  mm <- getitem months (lower p) ;;
  y' <- index date_parts 4 ;;
  Ok (d' ++ str "-" ++ mm ++ str "-" ++ y').
Proof.
  intros S G Hd Hy. unfold date, extract_field_with_regex. rewrite S, G.
  change (ngroups date_pattern) with 1. cbv iota.
  destruct (@date_text_strip d s1 s2 w s3 s4 y Hd Hy) as [-> E].
  cbn [bind]. rewrite E. reflexivity.
Qed.

(** The date rule on a text in which the pattern matched a given date
    text: the result is decided by whether the month word, lower-cased, is
    a key of the table. *)
Lemma date_on_date_text (t : text) (m : match_obj) (d s1 s2 w s3 s4 y : text) :
  re_search date_pattern t no_flags = Some m ->
  group m = Some (date_text d s1 s2 w s3 s4 y) ->
  digits d = true -> spaces s1 = true -> spaces s2 = true -> word w = true ->
  spaces s3 = true -> spaces s4 = true -> digits y = true ->
  match getitem months (lower w) with
  | Ok mm => date t = Ok (d ++ str "-" ++ mm ++ str "-" ++ y)
  | Raise _ => exists key, date t = Raise (KeyError key)
  end.
Proof.
  intros S G Hd H1 H2 Hw H3 H4 Hy.
  rewrite (@date_eval t m d s1 s2 w s3 s4 y S G Hd Hy). cbv zeta.
  destruct (getitem months (lower w)) as [mm|e] eqn:E.
  - apply month_word in E as E'. destruct E' as (_ & Hwd & _).
    rewrite date_parts_plain by assumption.
    unfold index. cbn [nth_error bind]. rewrite E. reflexivity.
  - destruct (@date_parts_any d s1 s2 w s3 s4 y Hd H1 H2 Hw H3)
      as (p & more & -> & [[-> _] | Hp]); unfold index; cbn [nth_error bind].
    + rewrite E. rewrite (getitem_raise _ _ E). cbn [bind]. eexists. reflexivity.
    + rewrite (number_not_month _ Hp). cbn [bind]. eexists. reflexivity.
Qed.

(** Every match of the date pattern is such a date text. *)
Lemma date_value (t : text) (m : match_obj) :
  re_search date_pattern t no_flags = Some m ->
  exists d s1 s2 w s3 s4 y,
    group m = Some (date_text d s1 s2 w s3 s4 y) /\
    (digits d = true /\ length d <= 2) /\
    (spaces s1 = true /\ spaces s2 = true /\ spaces s3 = true /\ spaces s4 = true) /\
    word w = true /\ (digits y = true /\ length y = 4) /\
    match getitem months (lower w) with
    | Ok mm => date t = Ok (d ++ str "-" ++ mm ++ str "-" ++ y)
    | Raise _ => exists key, date t = Raise (KeyError key)
    end.
Proof.
  intros S. destruct (date_shape _ S)
    as (d & s1 & s2 & w & s3 & s4 & y & G & Hd & Ld & H1 & H2 & Hw & H3 & H4 & Hy & Ly).
  exists d, s1, s2, w, s3, s4, y. repeat split; auto.
  apply (@date_on_date_text t m d s1 s2 w s3 s4 y); assumption.
Qed.

Lemma date_raises_key_error (t : text) (e : exn) :
  date t = Raise e -> exists key, e = KeyError key.
Proof.
  intros H. destruct (re_search date_pattern t no_flags) as [m|] eqn:S.
  - destruct (date_value _ S) as (d & s1 & s2 & w & s3 & s4 & y & _ & _ & _ & _ & _ & V).
    destruct (getitem months (lower w)); [congruence|].
    destruct V as (key & V). exists key. congruence.
  - rewrite (date_none _ S) in H. discriminate.
Qed.

Lemma dd_mm_yyyy_iff (d mm y : text) :
  digits d = true -> length d <= 2 -> forallb isdigit mm = true ->
  length mm = 2 -> digits y = true -> length y = 4 ->
  (is_dd_mm_yyyy (d ++ str "-" ++ mm ++ str "-" ++ y) = true <-> length d = 2).
Proof.
  intros Hd Ld Hm Lm Hy Ly. unfold digits in *.
  destruct mm as [|m1 [|m2 [|? ?]]]; try discriminate.
  destruct y as [|y1 [|y2 [|y3 [|y4 [|? ?]]]]]; try discriminate.
  destruct d as [|d1 [|d2 [|? ?]]]; try discriminate; cbn [length] in *; try lia.
  - split; [|lia]. cbn. discriminate.
  - split; [reflexivity|]. intros _.
    cbn [app str list_ascii_of_string is_dd_mm_yyyy].
    cbn [nonempty andb forallb] in *.
    repeat match goal with
           | H : _ && _ = true |- _ => apply andb_true_iff in H as [? ?]
           end.
    change (Ascii.eqb "-"%char hyphen) with true.
    repeat match goal with
           | H : isdigit _ = true |- _ => rewrite H; clear H
           end.
    reflexivity.
Qed.

Lemma date_no_match_here (sn rs : text) :
  stops isdigit rs = true -> match_at no_flags date_pattern sn rs = None.
Proof.
  intros H. unfold match_at, date_pattern. cbn [mtch seen rest group1].
  rewrite rep_fail_head by exact H. reflexivity.
Qed.

Lemma date_search_no_digit (t : text) :
  existsb isdigit t = false -> re_search date_pattern t no_flags = None.
Proof.
  unfold re_search. generalize (@nil ascii).
  induction t as [|a t IH]; intros sn H; cbn [search_from].
  - rewrite date_no_match_here; reflexivity.
  - cbn [existsb] in H. apply orb_false_iff in H as [Ha H].
    rewrite date_no_match_here; [apply IH; exact H|].
    cbn [stops]. rewrite Ha. reflexivity.
Qed.

(* ================================================================== *)
(** ** Strings: what [strip] keeps                                    *)
(* ================================================================== *)

Lemma stops_prefix (p : ascii -> bool) (x y : text) :
  x <> [] -> stops p (x ++ y) = true -> stops p x = true.
Proof. destruct x; [congruence | auto]. Qed.

Lemma lstrip_suffix (s : text) : exists w, s = w ++ lstrip s.
Proof. exists (leading isspace s). apply leading_lstrip. Qed.

Lemma rstrip_stops (s : text) :
  stops isspace s = true -> stops isspace (rstrip s) = true.
Proof.
  intros H. unfold rstrip.
  destruct (lstrip_suffix (rev s)) as (w & E).
  assert (S : s = rev (lstrip (rev s)) ++ rev w).
  { rewrite <- rev_app_distr, <- E. symmetry. apply rev_involutive. }
  destruct (rev (lstrip (rev s))) as [|a u] eqn:R; [reflexivity|].
  rewrite S in H. exact H.
Qed.

(** [strip] leaves nothing to strip. *)
Lemma strip_idempotent (s : text) : strip (strip s) = strip s.
Proof.
  apply strip_id.
  - unfold strip. apply rstrip_stops, lstrip_stops.
  - unfold strip, rstrip. rewrite rev_involutive. apply lstrip_stops.
Qed.

Lemma lstrip_keeps (p : ascii -> bool) (s : text) :
  existsb p s = false -> existsb p (lstrip s) = false.
Proof.
  intros H. destruct (lstrip_suffix s) as (w & E). rewrite E, existsb_app in H.
  apply orb_false_iff in H. apply H.
Qed.

Lemma existsb_rev (p : ascii -> bool) (s : text) :
  existsb p (rev s) = existsb p s.
Proof.
  induction s as [|a s IH]; [reflexivity|]. cbn [rev existsb].
  rewrite existsb_app, IH. cbn [existsb]. rewrite orb_false_r. apply orb_comm.
Qed.

Lemma strip_keeps (p : ascii -> bool) (s : text) :
  existsb p s = false -> existsb p (strip s) = false.
Proof.
  intros H. unfold strip, rstrip. rewrite existsb_rev. apply lstrip_keeps.
  rewrite existsb_rev. apply lstrip_keeps, H.
Qed.

(* ================================================================== *)
(** ** A line put before the text                                     *)
(* ================================================================== *)

(** Without [^] a match does not depend on the text already passed. *)
Lemma rep_ahead (p : ascii -> bool) (greedy : bool) (k k' : cursor -> option cursor) :
  (forall c c', same_ahead c c' -> both (k c) (k' c')) ->
  forall rs lo hi sn sn' g,
  both (rep p greedy lo hi k sn rs g) (rep p greedy lo hi k' sn' rs g).
Proof.
  intros K. induction rs as [|a rs IH]; intros lo hi sn sn' g;
    rewrite (@rep_eq _ p greedy lo hi k sn _ g), (@rep_eq _ p greedy lo hi k' sn' _ g);
    cbv zeta.
  - pose proof (K (Cursor sn [] g) (Cursor sn' [] g) (conj eq_refl eq_refl)) as C.
    destruct (hi_zero hi), lo, greedy,
      (k (Cursor sn [] g)), (k' (Cursor sn' [] g)); simpl in *; tauto.
  - pose proof (IH (pred lo) (option_map pred hi) (a :: sn) (a :: sn') g) as M.
    pose proof (K (Cursor sn (a :: rs) g) (Cursor sn' (a :: rs) g)
                  (conj eq_refl eq_refl)) as C.
    destruct (rep p greedy (pred lo) (option_map pred hi) k (a :: sn) rs g),
      (rep p greedy (pred lo) (option_map pred hi) k' (a :: sn') rs g),
      (k (Cursor sn (a :: rs) g)), (k' (Cursor sn' (a :: rs) g)),
      (hi_zero hi), (p a), lo, greedy; simpl in *; tauto.
Qed.

Lemma capture_ahead (c c' c1 c1' : cursor) :
  same_ahead c c' -> same_ahead c1 c1' -> same_ahead (capture c c1) (capture c' c1').
Proof.
  intros [R _] [R1 _]. unfold same_ahead, capture, span. cbn [rest group1].
  rewrite R, R1. auto.
Qed.

Lemma mtch_ahead (fl : flags) (r : regex) :
  bol_free r = true ->
  forall k k' : cursor -> option cursor,
  (forall c c', same_ahead c c' -> both (k c) (k' c')) ->
  forall c c', same_ahead c c' -> both (mtch fl r k c) (mtch fl r k' c').
Proof.
  induction r as [s|cs lo hi greedy|r1 IH1 r2 IH2|r1 IH1 r2 IH2|r1 IH1| |];
    cbn [bol_free]; intros B k k' K c c' [R G]; cbn [mtch].
  - rewrite !eat_spec, <- R. destruct (startswith s (rest c)); [|exact I].
    apply K. split; cbn [rest group1]; congruence.
  - rewrite <- R, <- G. apply rep_ahead, K.
  - apply andb_true_iff in B as [B1 B2].
    apply IH1; [exact B1| |split; assumption].
    intros c1 c1' S1. apply IH2; assumption.
  - apply andb_true_iff in B as [B1 B2].
    pose proof (IH1 B1 k k' K c c' (conj R G)) as M1.
    pose proof (IH2 B2 k k' K c c' (conj R G)) as M2.
    destruct (mtch fl r1 k c), (mtch fl r1 k' c'); simpl in *; tauto.
  - apply IH1; [exact B| |split; assumption].
    intros c1 c1' S1. apply K, capture_ahead; [split; assumption | exact S1].
  - discriminate.
  - assert (S : same_ahead c c') by (split; assumption).
    unfold at_eol. rewrite <- R. destruct (rest c) as [|a rs].
    + apply K, S.
    + destruct (isnewline a && _); [|exact I]. apply K, S.
Qed.

Lemma match_at_ahead (fl : flags) (r : regex) (sn sn' rs : text) :
  bol_free r = true ->
  option_map group (match_at fl r sn rs) = option_map group (match_at fl r sn' rs).
Proof.
  intros B. unfold match_at.
  pose proof (@mtch_ahead fl r B (fun c => Some c) (fun c => Some c)
                (fun c c' S => S) (Cursor sn rs None) (Cursor sn' rs None)
                (conj eq_refl eq_refl)) as M.
  destruct (mtch fl r (fun c => Some c) (Cursor sn rs None)) as [c1|],
    (mtch fl r (fun c => Some c) (Cursor sn' rs None)) as [c2|];
    simpl in M; try tauto.
  destruct M as [_ G]. cbn [option_map]. unfold group. cbn [m_end].
  rewrite G. reflexivity.
Qed.

Lemma search_from_ahead (fl : flags) (r : regex) :
  bol_free r = true ->
  forall rs sn sn',
  option_map group (search_from fl r sn rs) = option_map group (search_from fl r sn' rs).
Proof.
  intros B. induction rs as [|a rs IH]; intros sn sn'; cbn [search_from].
  - pose proof (@match_at_ahead fl r sn sn' [] B) as M.
    destruct (match_at fl r sn []), (match_at fl r sn' []); simpl in *; congruence.
  - pose proof (@match_at_ahead fl r sn sn' (a :: rs) B) as M.
    destruct (match_at fl r sn (a :: rs)), (match_at fl r sn' (a :: rs));
      simpl in *; try congruence.
    apply IH.
Qed.

Lemma tail_of_cons (a : ascii) (w v : text) : tail_of w v -> tail_of (a :: w) v.
Proof. intros (N & u & ->). split; [exact N|]. exists (a :: u). reflexivity. Qed.

Lemma tail_of_self (a : ascii) (w : text) : tail_of (a :: w) (a :: w).
Proof. split; [discriminate|]. exists []. reflexivity. Qed.

(** A search passes over a prefix in which the pattern matches nowhere. *)
Lemma search_from_skip (fl : flags) (r : regex) (t : text) :
  forall w sn,
  (forall v sn', tail_of w v -> match_at fl r sn' (v ++ t) = None) ->
  search_from fl r sn (w ++ t) = search_from fl r (rev w ++ sn) t.
Proof.
  induction w as [|a w IH]; intros sn H; [reflexivity|].
  cbn [app search_from].
  pose proof (H (a :: w) sn (tail_of_self a w)) as M. cbn [app] in M. rewrite M.
  rewrite rev_cons_app. apply IH. intros v sn' T. apply H, tail_of_cons, T.
Qed.

Lemma re_search_prefix (fl : flags) (r : regex) (w t : text) :
  bol_free r = true ->
  (forall v sn', tail_of w v -> match_at fl r sn' (v ++ t) = None) ->
  option_map group (re_search r (w ++ t) fl) = option_map group (re_search r t fl).
Proof.
  intros B H. unfold re_search. rewrite search_from_skip by exact H.
  apply search_from_ahead, B.
Qed.

Lemma extract_field_with_regex_group (t t' : text) (r : regex) :
  option_map group (re_search r t' no_flags) = option_map group (re_search r t no_flags) ->
  extract_field_with_regex t' r = extract_field_with_regex t r.
Proof.
  unfold extract_field_with_regex.
  destruct (re_search r t' no_flags), (re_search r t no_flags); cbn [option_map];
    intros H; try discriminate; [|reflexivity].
  injection H as ->. reflexivity.
Qed.

Lemma after_first_skip (l t : text) :
  forall w,
  (forall v, tail_of w v -> startswith l (v ++ t) = false) ->
  after_first l (w ++ t) = after_first l t.
Proof.
  induction w as [|a w IH]; intros H; [reflexivity|].
  pose proof (H (a :: w) (tail_of_self a w)) as M. cbn [app] in *.
  rewrite after_first_next by exact M. apply IH.
  intros v T. apply H, tail_of_cons, T.
Qed.

(** A label without a newline begins before the end of a line only if it
    begins in the line. *)
Lemma startswith_before_newline (l : text) :
  existsb isnewline l = false ->
  forall v t, startswith l (v ++ newline :: t) = startswith l v.
Proof.
  induction l as [|a l IH]; intros N v t; [destruct v; reflexivity|].
  cbn [existsb] in N. apply orb_false_iff in N as [Na N].
  destruct v as [|b v]; cbn [app startswith].
  - unfold isnewline in Na. rewrite Na. reflexivity.
  - rewrite (IH N). reflexivity.
Qed.

Lemma occurs_tail (l : text) :
  forall u v, occurs l (u ++ v) = false -> startswith l v = false.
Proof.
  unfold occurs. induction u as [|a u IH]; intros v H; cbn [app] in H.
  - destruct v as [|b v]; cbn [after_first] in H;
      destruct (startswith l _); [discriminate | reflexivity | discriminate | reflexivity].
  - cbn [after_first] in H. destruct (startswith l (a :: u ++ v)); [discriminate|].
    apply IH, H.
Qed.

Lemma tail_of_line (x v : text) :
  tail_of (x ++ nl) v -> exists u v0, x = u ++ v0 /\ v = v0 ++ nl.
Proof.
  intros (N & u & E).
  destruct (exists_last N) as (v0 & z & ->).
  rewrite app_assoc in E. apply app_inj_tail in E as [-> <-].
  exists u, v0. auto.
Qed.

Lemma label_not_in_line (l x v t : text) :
  occurs l x = false -> existsb isnewline l = false -> tail_of (x ++ nl) v ->
  startswith l (v ++ t) = false.
Proof.
  intros O N T. apply tail_of_line in T as (u & v0 & -> & ->).
  rewrite <- app_assoc. change (nl ++ t) with (newline :: t).
  rewrite (@startswith_before_newline _ N). apply (@occurs_tail _ _ _ O).
Qed.

Lemma no_digit_in_line (x v t : text) :
  existsb isdigit x = false -> tail_of (x ++ nl) v -> stops isdigit (v ++ t) = true.
Proof.
  intros D T. apply tail_of_line in T as (u & v0 & -> & ->).
  rewrite existsb_app in D. apply orb_false_iff in D as [_ D].
  destruct v0 as [|a v0]; [reflexivity|]. cbn [existsb] in D.
  apply orb_false_iff in D as [Da _]. cbn [app stops]. rewrite Da. reflexivity.
Qed.

Lemma lstrip_app (s u : text) : lstrip s <> [] -> lstrip (s ++ u) = lstrip s ++ u.
Proof.
  induction s as [|a s IH]; [intros H; destruct (H eq_refl)|]. cbn [lstrip app].
  destruct (isspace a); [exact IH | reflexivity].
Qed.

Lemma take_line_app (s t : text) :
  existsb isnewline s = false -> take_line (s ++ newline :: t) = s.
Proof.
  unfold take_line. induction s as [|a s IH]; cbn [existsb app take_until].
  - reflexivity.
  - rewrite startswith_nl. intros H. apply orb_false_iff in H as [Ha H].
    rewrite Ha, (IH H). reflexivity.
Qed.

Lemma strip_lstrip (s : text) : strip (lstrip s) = strip s.
Proof. unfold strip. rewrite (lstrip_id _ (lstrip_stops s)). reflexivity. Qed.

(** What a plain subject line is. *)
Lemma plain_subject_line_inv (lab body : text) :
  plain_subject_line lab body = true ->
  (lab = str "Asunto:" \/ lab = str "ASUNTO:") /\
  existsb isnewline body = false /\ lstrip body <> [] /\
  existsb isdigit (lab ++ body) = false /\
  forall l, In l other_labels -> occurs l (lab ++ body) = false.
Proof.
  unfold plain_subject_line. intros H.
  apply andb_true_iff in H as [H L]. apply andb_true_iff in H as [H D].
  apply andb_true_iff in H as [H B]. apply andb_true_iff in H as [H N].
  apply negb_true_iff in N, D.
  assert (Hlab : lab = str "Asunto:" \/ lab = str "ASUNTO:").
  { cbn [existsb subject_labels] in H. rewrite orb_false_r in H.
    apply orb_true_iff in H as [H | H]; apply text_eqb_eq in H; auto. }
  split; [exact Hlab|]. split; [exact N|]. split.
  - destruct (lstrip body); [discriminate | congruence].
  - split.
    + rewrite existsb_app, D, orb_false_r. destruct Hlab as [-> | ->]; reflexivity.
    + intros l I. rewrite forallb_forall in L. apply negb_true_iff, L, I.
Qed.

(** The rules on a text with a plain subject line put before it. *)
Lemma subject_line_before (lab body t : text) :
  plain_subject_line lab body = true ->
  subject (subject_line lab body ++ t) = Ok (strip body) /\
  doc_name (subject_line lab body ++ t) = doc_name t /\
  date (subject_line lab body ++ t) = date t /\
  references (subject_line lab body ++ t) = references t /\
  annexes (subject_line lab body ++ t) = annexes t.
Proof.
  intros P. apply plain_subject_line_inv in P as (Hlab & N & B & D & L).
  assert (E : subject_line lab body = (lab ++ body) ++ nl)
    by (unfold subject_line; apply app_assoc).
  assert (Lab : forall l v, In l other_labels -> existsb isnewline l = false ->
            tail_of (subject_line lab body) v -> startswith l (v ++ t) = false).
  { intros l v I Nl T. rewrite E in T. apply (@label_not_in_line _ _ _ _ (L l I) Nl T). }
  split; [|split; [|split; [|split]]].
  - pose proof (subject_search (subject_line lab body ++ t)) as S.
    assert (A : after_label (str "Asunto:") (str "ASUNTO:") (subject_line lab body ++ t) =
                Some (body ++ newline :: t)).
    { unfold subject_line. rewrite <- !app_assoc.
      destruct Hlab as [-> | ->]; reflexivity. }
    rewrite A in S. rewrite (@lstrip_app _ _ B) in S.
    destruct S as (m & M & G).
    { rewrite existsb_app. cbn [existsb]. unfold isnewline at 2.
      rewrite Ascii.eqb_refl. apply orb_true_r. }
    unfold subject, extract_field_with_regex. rewrite M, G.
    rewrite (@take_line_app _ _ (@lstrip_keeps _ _ N)), strip_lstrip. reflexivity.
  - apply extract_field_with_regex_group, re_search_prefix; [reflexivity|].
    intros v sn' T. unfold match_at. rewrite name_pattern_at.
    rewrite (Lab (str "Oficio Nro.") v), (Lab (str "Memorando Nro.") v);
      auto; cbn; auto.
  - unfold date. f_equal.
    apply extract_field_with_regex_group, re_search_prefix; [reflexivity|].
    intros v sn' T. apply date_no_match_here. rewrite E in T.
    apply (@no_digit_in_line _ _ _ D T).
  - rewrite !references_eq. rewrite after_first_skip; [reflexivity|].
    intros v T. apply Lab; auto; cbn; auto.
  - rewrite !annexes_eq. rewrite after_first_skip; [reflexivity|].
    intros v T. apply Lab; auto; cbn; auto.
Qed.

(* ================================================================== *)
(** ** Errors of a run                                                *)
(* ================================================================== *)

Lemma process_entries_raises (es : list (text * node)) (e : exn) :
  process_entries es = Raise e -> exists key, e = KeyError key.
Proof.
  induction es as [|[filename pdf_path] es IH]; cbn [process_entries]; [discriminate|].
  destruct (is_pdf_name filename); [|exact IH].
  destruct (process_pdf pdf_path) as [rs|e'] eqn:P; cbn [bind].
  - destruct (process_entries es) as [data|e'']; cbn [bind]; [discriminate|].
    intros H. injection H as <-. apply IH. reflexivity.
  - intros H. injection H as <-. unfold process_pdf in P.
    destruct (extract_text_from_pdf pdf_path) as [|a t]; [discriminate|].
    apply extract_raise_inv, date_raises_key_error in P. exact P.
Qed.

(* ================================================================== *)
(** ** C1: one row per annex                                          *)
(* ================================================================== *)

(** C1, as stated, fails: on a text whose date match names no month of the
    table, [extract] raises and returns no record at all. *)
Lemma extract_no_row_on_unknown_month :
  ~ exists rs, extract (str "1 de foo de 2021") = Ok rs /\ rs <> [].
Proof. intros (rs & H & _). vm_compute in H. discriminate. Qed.

(** C1 (amended): for every input text on which the date rule does not
    raise, [extract] returns at least one record: with a non-empty list of
    annex items exactly one record per item, in order, and with an empty
    list exactly one record whose annex field is the sentinel; the name,
    date, subject and references fields are the same in all records.  These
    records are what [process_pdf] returns for a PDF with this text, unless
    the text is empty: then [process_pdf] returns no record. *)
Theorem extract_one_row_per_annex (t d : text) :
  date t = Ok d ->
  exists rs anx n s r,
    extract t = Ok rs /\ annexes t = Ok anx /\ rs <> [] /\
    map Anexo rs = match anx with
                   | [] => [str "No encontrado"]
                   | _ => anx
                   end /\
    (forall x, In x rs ->
       Nombre x = n /\ Fecha x = d /\ Asunto x = s /\ Referencias x = r) /\
    (forall pdf_path, extract_text_from_pdf pdf_path = t ->
       process_pdf pdf_path = match t with [] => Ok [] | _ => Ok rs end).
Proof.
  intros D. pose proof (extract_date t) as H. rewrite D in H.
  destruct H as (n & s & r & a & _ & _ & _ & Ha & He).
  exists (rows n d s r a), a, n, s, r.
  repeat split; auto using rows_not_nil, rows_annexes;
    try (eapply rows_fields; eassumption).
  intros pdf_path T. unfold process_pdf. rewrite T.
  destruct t; [reflexivity | exact He].
Qed.

Lemma extract_one_row_per_annex_witness :
  let t := str "Oficio Nro. 7" ++ nl ++ str "15 de marzo de 2021" ++ nl ++
           str "Anexos:" ++ nl ++ str "- a" ++ nl ++ str "- b" in
  exists rs anx n s r,
    extract t = Ok rs /\ annexes t = Ok anx /\ rs <> [] /\
    map Anexo rs = match anx with
                   | [] => [str "No encontrado"]
                   | _ => anx
                   end /\
    (forall x, In x rs ->
       Nombre x = n /\ Fecha x = str "15-03-2021" /\ Asunto x = s /\
       Referencias x = r) /\
    (forall pdf_path, extract_text_from_pdf pdf_path = t ->
       process_pdf pdf_path = match t with [] => Ok [] | _ => Ok rs end).
Proof.
  intros t. apply (@extract_one_row_per_annex t (str "15-03-2021")).
  vm_compute. reflexivity.
Defined.

(* ================================================================== *)
(** ** C2: the date field                                             *)
(* ================================================================== *)

(** C2, as stated, fails: a day written with one digit is not padded, so
    the date field is not of the form DD-MM-YYYY. *)
Lemma date_day_is_not_padded :
  date (str "5 de marzo de 2021") = Ok (str "5-03-2021") /\
  is_dd_mm_yyyy (str "5-03-2021") = false.
Proof. split; vm_compute; reflexivity. Qed.

(** C2 (amended): when the date pattern does not match, the date field is
    the sentinel.  When it matches, the match is a day of one or two
    digits, ["de"], a month word, ["de"] and a year of four digits,
    separated by whitespace; and whenever the match reads so with a month
    word that, lower-cased, is in the table, the date field is the day as
    written (not padded), the two-digit number of the month and the year,
    joined by hyphens: of the form DD-MM-YYYY exactly when the day was
    written with two digits.  The text ["15 de marzo de 2021"] gives
    ["15-03-2021"]. *)
Theorem date_reassembled (t : text) :
  (re_search date_pattern t no_flags = None -> date t = Ok (str "No encontrada")) /\
  (forall m, re_search date_pattern t no_flags = Some m ->
     exists d s1 s2 w s3 s4 y,
       group m = Some (date_text d s1 s2 w s3 s4 y) /\
       (digits d = true /\ length d <= 2) /\
       (spaces s1 = true /\ spaces s2 = true /\ spaces s3 = true /\
        spaces s4 = true) /\
       word w = true /\ (digits y = true /\ length y = 4)) /\
  (forall m d s1 s2 w s3 s4 y mm,
     re_search date_pattern t no_flags = Some m ->
     group m = Some (date_text d s1 s2 w s3 s4 y) ->
     digits d = true -> length d <= 2 ->
     spaces s1 = true -> spaces s2 = true -> spaces s3 = true -> spaces s4 = true ->
     digits y = true -> length y = 4 ->
     getitem months (lower w) = Ok mm ->
     date t = Ok (d ++ str "-" ++ mm ++ str "-" ++ y) /\
     (is_dd_mm_yyyy (d ++ str "-" ++ mm ++ str "-" ++ y) = true <-> length d = 2)) /\
  date (str "15 de marzo de 2021") = Ok (str "15-03-2021").
Proof.
  split; [apply date_none | split; [|split; [|reflexivity]]].
  - intros m S. destruct (date_value _ S)
      as (d & s1 & s2 & w & s3 & s4 & y & G & Hd & Hs & Hw & Hy & _).
    exists d, s1, s2, w, s3, s4, y. auto.
  - intros m d s1 s2 w s3 s4 y mm S G Hd Ld H1 H2 H3 H4 Hy Ly M.
    destruct (month_word _ M) as (Hw & _ & Hm & Lm). split.
    + pose proof (@date_on_date_text t m d s1 s2 w s3 s4 y S G Hd H1 H2 Hw H3 H4 Hy) as V.
      rewrite M in V. exact V.
    + apply dd_mm_yyyy_iff; assumption.
Qed.

Lemma date_reassembled_witness :
  let t := str "Quito, 7 de MARZO de 2021" ++ nl in
  date t = Ok (str "7-03-2021") /\
  (is_dd_mm_yyyy (str "7-03-2021") = true <-> length (str "7") = 2).
Proof.
  intros t. destruct (date_reassembled t) as (_ & _ & H & _).
  destruct (re_search date_pattern t no_flags) as [m|] eqn:S;
    [|vm_compute in S; discriminate].
  apply (H m (str "7") (str " ") (str " ") (str "MARZO") (str " ") (str " ")
           (str "2021") (str "03") eq_refl).
  - vm_compute in S. injection S as <-. reflexivity.
  - reflexivity.
  - cbn. lia.
  - reflexivity.
  - reflexivity.
  - reflexivity.
  - reflexivity.
  - reflexivity.
  - reflexivity.
  - reflexivity.
Defined.

(* ================================================================== *)
(** ** C3: missing configuration                                      *)
(* ================================================================== *)

(** C3: with both settings missing the start-up stops before any file
    operation, but the error names only [SERVER_ROUTE]; the function that
    would name both, [verify_environment_variables], is never called. *)
Theorem main_names_first_missing_only (disk : text -> option node) :
  main (fun _ => None) disk = ([], Raise (EnvError (str "SERVER_ROUTE"))) /\
  verify_environment_variables (fun _ => None) =
    Raise (EnvironmentError
             (str "Faltan las siguientes variables de entorno: SERVER_ROUTE, DOWNLOAD_ROUTE")).
Proof. split; reflexivity. Qed.

(* ================================================================== *)
(** ** C4: an unknown month                                           *)
(* ================================================================== *)

(** C4: when the date pattern matches a date text whose month word,
    lower-cased, is no key of the table, [extract] raises a [KeyError]
    instead of giving a sentinel, and so does the run over any directory
    that holds a PDF with this text: the run stops after listing the
    directory and writes no output. *)
Theorem unknown_month_aborts (t : text) (m : match_obj)
    (d s1 s2 w s3 s4 y : text) :
  re_search date_pattern t no_flags = Some m ->
  group m = Some (date_text d s1 s2 w s3 s4 y) ->
  digits d = true -> spaces s1 = true -> spaces s2 = true -> word w = true ->
  spaces s3 = true -> spaces s4 = true -> digits y = true ->
  (forall mm, getitem months (lower w) <> Ok mm) ->
  (exists key, date t = Raise (KeyError key) /\ extract t = Raise (KeyError key)) /\
  forall before after filename pdf_path,
    is_pdf_name filename = true -> extract_text_from_pdf pdf_path = t ->
    (exists key,
       process_directory (Folder (before ++ (filename, pdf_path) :: after)) =
       Raise (KeyError key)) /\
    forall env disk directory download,
      env (str "SERVER_ROUTE") = Some directory ->
      env (str "DOWNLOAD_ROUTE") = Some download ->
      disk directory = Some (Folder (before ++ (filename, pdf_path) :: after)) ->
      exists key, main env disk = ([Listdir directory], Raise (KeyError key)).
Proof.
  intros S G Hd H1 H2 Hw H3 H4 Hy Hm.
  pose proof (@date_on_date_text t m d s1 s2 w s3 s4 y S G Hd H1 H2 Hw H3 H4 Hy) as V.
  destruct (getitem months (lower w)) as [mm|e]; [destruct (Hm mm eq_refl)|].
  destruct V as (key & V).
  assert (X : extract t = Raise (KeyError key)).
  { pose proof (extract_date t) as X. rewrite V in X. exact X. }
  split; [eauto|].
  intros before after filename pdf_path Hf Ht.
  assert (D : exists key',
            process_directory (Folder (before ++ (filename, pdf_path) :: after)) =
            Raise (KeyError key')).
  { cbn [process_directory]. rewrite process_entries_app.
    destruct (process_entries before) as [rs1|e1] eqn:B; cbn [bind].
    - cbn [process_entries]. rewrite Hf. unfold process_pdf. rewrite Ht.
      destruct t as [|a t']; [vm_compute in S; discriminate|].
      rewrite X. cbn [bind]. eauto.
    - apply process_entries_raises in B as (k & ->). eauto. }
  split; [exact D|].
  intros env disk directory download E1 E2 E3. destruct D as (key' & D).
  exists key'. unfold main, env_str. rewrite E1, E2, E3, D. reflexivity.
Qed.

Lemma unknown_month_aborts_witness :
  let t := str "Quito, 1 de foo de 2021" ++ nl in
  (exists key, date t = Raise (KeyError key) /\ extract t = Raise (KeyError key)) /\
  exists key,
    main (fun var => Some (str "/data"))
         (fun path => Some (Folder ([] ++ (str "a.pdf", File (Pages [Some t])) :: []))) =
    ([Listdir (str "/data")], Raise (KeyError key)).
Proof.
  intros t.
  destruct (re_search date_pattern t no_flags) as [m|] eqn:S;
    [|vm_compute in S; discriminate].
  assert (G : group m = Some (date_text (str "1") (str " ") (str " ") (str "foo")
                                (str " ") (str " ") (str "2021")))
    by (vm_compute in S; injection S as <-; reflexivity).
  destruct (@unknown_month_aborts t m (str "1") (str " ") (str " ") (str "foo")
              (str " ") (str " ") (str "2021") S G
              eq_refl eq_refl eq_refl eq_refl eq_refl eq_refl eq_refl
              ltac:(intros mm H; vm_compute in H; discriminate)) as [H1 H2].
  split; [exact H1|].
  destruct (H2 [] [] (str "a.pdf") (File (Pages [Some t])) eq_refl
              ltac:(vm_compute; reflexivity)) as [_ H3].
  apply (H3 (fun var => Some (str "/data")) _ (str "/data") (str "/data"));
    reflexivity.
Defined.

(* ================================================================== *)
(** ** C5: the references                                             *)
(* ================================================================== *)

(** C5, as stated, fails: the label is present and nothing follows it; the
    claimed procedure joins an empty list into the empty string, the code
    gives the sentinel. *)
Lemma references_label_alone_gives_sentinel :
  occurs (str "Referencias:") (str "Referencias:") = true /\
  references_as_claimed (str "Referencias:") = [] /\
  references (str "Referencias:") = Ok (str "No encontradas") /\
  references (str "Referencias:") <> Ok (references_as_claimed (str "Referencias:")).
Proof. repeat split; try reflexivity. vm_compute. discriminate. Qed.

(** C5 (amended): for every text the references field is found as follows.
    Without the label it is the sentinel.  With the label, the capture
    starts after the first occurrence of the label and the whitespace
    (newlines included) that follows it and runs to the next newline or the
    end of the text; it is split on ["- "], each piece trimmed, empty
    pieces dropped; the field is the pieces joined with [", "], or the
    sentinel when no piece is left.  The example of the claim holds. *)
Theorem references_field (t : text) :
  references t = Ok (references_spec t) /\
  references (str "Referencias:" ++ nl ++ str "A - B - C" ++ nl) = Ok (str "A, B, C").
Proof.
  split; [|reflexivity].
  unfold references, references_spec. pose proof (references_search t) as S.
  destruct (after_first (str "Referencias:") t) as [a|].
  - destruct S as (m & -> & ->). unfold reference_list, bind.
    destruct (filter nonempty (map strip (split (str "- ") (take_line (lstrip a)))));
      reflexivity.
  - rewrite S. reflexivity.
Qed.

(* ================================================================== *)
(** ** C6: the annexes                                                *)
(* ================================================================== *)

(** C6, as stated, fails: a section line that begins with a hyphen and no
    space is an annex item too. *)
Lemma annex_item_needs_no_space :
  let t := str "Anexos:" ++ nl ++ str "-x" in
  occurs (str "Anexos:") t = true /\
  annexes_as_claimed t = [] /\
  annexes t = Ok [str "x"].
Proof. repeat split; vm_compute; reflexivity. Qed.

(** C6 (amended): for every text with the label ["Anexos:"], the section is
    the text after the first occurrence of the label and the whitespace
    (blank lines included) that follows it, up to the first blank line or
    the end of the text, one final newline left out.  When no line of the
    section is a hyphen followed by whitespace only, the annex items are, in
    order, one for each line that begins with a hyphen: the rest of that line
    from its first character that is not whitespace.  Text after the section
    changes nothing, and the list can be empty with the label present. *)
Theorem annexes_of_section (t a : text) (lines : list text) :
  after_first (str "Anexos:") t = Some a ->
  upto_blank (lstrip a) = join nl lines ->
  forallb ok_line lines = true ->
  annexes t = Ok (flat_map item_of_line lines) /\
  (forall t' a', after_first (str "Anexos:") t' = Some a' ->
     upto_blank (lstrip a') = upto_blank (lstrip a) -> annexes t' = annexes t) /\
  annexes (str "Anexos:" ++ nl ++ str "ninguno" ++ nl) = Ok [].
Proof.
  intros A S Hok. split; [|split].
  - rewrite annexes_eq, A, S. f_equal. apply findall_lines; [reflexivity | exact Hok].
  - intros t' a' A' S'. rewrite !annexes_eq, A, A', S'. reflexivity.
  - reflexivity.
Qed.

Lemma annexes_of_section_witness :
  let t := str "Anexos:" ++ nl ++ nl ++ str "- uno" ++ nl ++ str "-dos" ++ nl ++
           str "nota" ++ nl ++ nl ++ str "- tres" ++ nl in
  annexes t = Ok [str "uno"; str "dos"].
Proof.
  intros t.
  apply (@annexes_of_section t
           (nl ++ nl ++ str "- uno" ++ nl ++ str "-dos" ++ nl ++
            str "nota" ++ nl ++ nl ++ str "- tres" ++ nl)
           [str "- uno"; str "-dos"; str "nota"]); reflexivity.
Defined.

(* ================================================================== *)
(** ** C7: a failed match gives the sentinel of its field             *)
(* ================================================================== *)

(** C7, as stated, fails.  On a text whose date names no month of the
    table the subject, references and annex patterns do not match, yet no
    record holds a sentinel: the month lookup raises before the later rules
    run, and [extract] returns nothing.  And a text with its subject present
    need not have the other fields of the text without it: a subject that
    holds a date gives the record another date. *)
Lemma failed_match_without_record :
  (let t := str "Oficio Nro. 7" ++ nl ++ str "Quito, 1 de foo de 2021" ++ nl in
   match_fails FAsunto t = true /\ match_fails FReferencias t = true /\
   match_fails FAnexo t = true /\ forall rs, extract t <> Ok rs) /\
  (let t := str "Quito, 1 de mayo de 2021" ++ nl in
   let line := subject_line (str "Asunto:") (str " cita del 5 de junio de 2020") in
   occurs (str "Asunto:") t = false /\ occurs (str "ASUNTO:") t = false /\
   date t = Ok (str "1-05-2021") /\ date (line ++ t) = Ok (str "5-06-2020")).
Proof.
  split; cbv zeta; repeat split; try (vm_compute; reflexivity).
  intros rs H. vm_compute in H. discriminate.
Qed.

(** C7 (amended): for every text, (1) each rule whose pattern does not
    match gives its own sentinel (the annex rule an empty list, which the
    row expansion turns into the sentinel) and does not raise; (2) when the
    date rule does not raise, [extract] returns at least one record, and
    every record holds the sentinel in every column whose pattern did not
    match; (3) [extract] raises only when the date pattern did match, and
    then a [KeyError]; (4) when the text has no ["Asunto:"] or ["ASUNTO:"]
    label its subject is the sentinel, and with a subject line put before
    it, a line that holds no digit and no label of another rule, the subject
    is the one of that line while the name, the date, the references and
    the annexes are those of the text without it, in every record. *)
Theorem failed_match_gives_sentinel (t : text) :
  ((match_fails FNombre t = true -> doc_name t = Ok (sentinel FNombre)) /\
   (match_fails FFecha t = true -> date t = Ok (sentinel FFecha)) /\
   (match_fails FAsunto t = true -> subject t = Ok (sentinel FAsunto)) /\
   (match_fails FReferencias t = true -> references t = Ok (sentinel FReferencias)) /\
   (match_fails FAnexo t = true -> annexes t = Ok [])) /\
  (forall d, date t = Ok d ->
     exists rs, extract t = Ok rs /\ rs <> [] /\
       forall f x, match_fails f t = true -> In x rs -> value f x = sentinel f) /\
  (forall e, extract t = Raise e ->
     match_fails FFecha t = false /\ exists key, e = KeyError key) /\
  (occurs (str "Asunto:") t = false -> occurs (str "ASUNTO:") t = false ->
   match_fails FAsunto t = true /\ subject t = Ok (sentinel FAsunto) /\
   forall lab body, plain_subject_line lab body = true ->
     subject (subject_line lab body ++ t) = Ok (strip body) /\
     doc_name (subject_line lab body ++ t) = doc_name t /\
     date (subject_line lab body ++ t) = date t /\
     references (subject_line lab body ++ t) = references t /\
     annexes (subject_line lab body ++ t) = annexes t /\
     forall rs, extract t = Ok rs ->
       exists rs', extract (subject_line lab body ++ t) = Ok rs' /\
         map but_subject rs' = map but_subject rs /\
         (forall x, In x rs -> Asunto x = sentinel FAsunto) /\
         (forall x, In x rs' -> Asunto x = strip body)).
Proof.
  assert (Rules :
    (match_fails FNombre t = true -> doc_name t = Ok (sentinel FNombre)) /\
    (match_fails FFecha t = true -> date t = Ok (sentinel FFecha)) /\
    (match_fails FAsunto t = true -> subject t = Ok (sentinel FAsunto)) /\
    (match_fails FReferencias t = true -> references t = Ok (sentinel FReferencias)) /\
    (match_fails FAnexo t = true -> annexes t = Ok [])).
  { cbn [match_fails sentinel]. repeat split; intros F.
    - apply not_found_none in F. apply extract_field_with_regex_none, F.
    - apply not_found_none in F. apply date_none, F.
    - apply not_found_none in F. apply extract_field_with_regex_none, F.
    - apply not_found_none in F. apply references_none, F.
    - apply annexes_none, F. }
  split; [exact Rules|]. destruct Rules as (Rn & Rd & Rs & Rr & Ra).
  split; [|split].
  - intros d D. pose proof (extract_date t) as X. rewrite D in X.
    destruct X as (n & s & r & a & Hn & Hs & Hr & Ha & He).
    exists (rows n d s r a). split; [exact He|]. split; [apply rows_not_nil|].
    intros f x F I. destruct (rows_fields _ _ _ _ _ _ I) as (In_ & Id & Is & Ir).
    destruct f; cbn [value].
    + rewrite (Rn F) in Hn. congruence.
    + rewrite (Rd F) in D. congruence.
    + rewrite (Rs F) in Hs. congruence.
    + rewrite (Ra F) in Ha. injection Ha as <-.
      destruct I as [<- | []]. reflexivity.
    + rewrite (Rr F) in Hr. congruence.
  - intros e E. apply extract_raise_inv in E. split.
    + cbn [match_fails].
      destruct (re_search date_pattern t no_flags) eqn:S; [reflexivity|].
      rewrite (date_none _ S) in E. discriminate.
    + apply (date_raises_key_error _ E).
  - intros O1 O2. pose proof (subject_label_missing _ O1 O2) as S.
    assert (F : match_fails FAsunto t = true) by (cbn [match_fails]; rewrite S; reflexivity).
    split; [exact F|]. split; [exact (Rs F)|].
    intros lab body P.
    destruct (@subject_line_before lab body t P) as (Hs' & Hn' & Hd' & Hr' & Ha').
    repeat (split; [assumption|]).
    intros rs E.
    apply extract_ok_inv in E as (n & d & s & r & a & En & Ed & Es & Er & Ea & ->).
    exists (rows n d (strip body) r a). split; [|split; [|split]].
    + unfold extract. rewrite Hn', Hd', Hs', Hr', Ha', En, Ed, Er, Ea. reflexivity.
    + apply rows_but_subject.
    + intros x I. destruct (rows_fields _ _ _ _ _ _ I) as (_ & _ & -> & _).
      rewrite (Rs F) in Es. congruence.
    + intros x I. destruct (rows_fields _ _ _ _ _ _ I) as (_ & _ & -> & _).
      reflexivity.
Qed.

Lemma failed_match_gives_sentinel_witness :
  let t := str "Oficio Nro. 7" ++ nl ++ str "Anexos:" ++ nl ++ str "- a" ++ nl in
  let t' := subject_line (str "ASUNTO:") (str "  Entrega de actas ") ++ t in
  subject t = Ok (str "No encontrado") /\
  (exists rs, extract t = Ok rs /\ rs <> [] /\
     forall f x, match_fails f t = true -> In x rs -> value f x = sentinel f) /\
  subject t' = Ok (str "Entrega de actas") /\
  doc_name t' = doc_name t /\ date t' = date t /\
  references t' = references t /\ annexes t' = annexes t.
Proof.
  intros t t'. destruct (failed_match_gives_sentinel t) as (_ & H2 & _ & H4).
  destruct (H4 eq_refl eq_refl) as (_ & S & L).
  destruct (L (str "ASUNTO:") (str "  Entrega de actas ") eq_refl)
    as (S' & N & D & R & A & _).
  split; [exact S|]. split; [apply (H2 (str "No encontrada")); reflexivity|].
  split; [exact S'|]. auto.
Defined.

(* ================================================================== *)
(** ** C8: unreadable files                                           *)
(* ================================================================== *)



(* ================================================================== *)
(** ** C9: the files of a directory                                   *)
(* ================================================================== *)

(** C9: [process_directory] looks at the immediate entries of the directory
    only (what a sub-directory holds changes nothing), keeps exactly the
    entries whose name ends in [.pdf] in any mix of cases, is unaffected by
    the other entries, and returns the records of the kept files
    concatenated in listing order. *)
Theorem process_directory_pdf_entries_in_order (entries : list (text * node)) :
  process_directory (Folder entries) =
    process_directory (Folder (filter is_pdf_entry entries)) /\
  (forall filename, is_pdf_name filename = true <->
     exists stem ext, filename = stem ++ ext /\ lower ext = str ".pdf") /\
  (forall recs : text * node -> list row,
     (forall e, In e entries -> is_pdf_entry e = true ->
        process_pdf (snd e) = Ok (recs e)) ->
     process_directory (Folder entries) =
       Ok (flat_map recs (filter is_pdf_entry entries))) /\
  (forall before after filename inside inside',
     entries = before ++ (filename, Folder inside) :: after ->
     process_directory (Folder entries) =
       process_directory (Folder (before ++ (filename, Folder inside') :: after))).
Proof.
  split; [|split; [|split]].
  - simpl. apply process_entries_filter.
  - apply is_pdf_name_iff.
  - intros recs H. simpl. apply process_entries_concat. exact H.
  - intros before after filename inside inside' ->. simpl.
    rewrite !process_entries_app.
    rewrite !process_entries_skip by (right; reflexivity). reflexivity.
Qed.

Lemma process_directory_pdf_entries_in_order_witness :
  let one := File (Pages [Some (str "Asunto: x" ++ nl)]) in
  let two := File (Pages [Some (str "Anexos:" ++ nl ++ str "- a" ++ nl ++ str "- b")]) in
  let entries :=
    [(str "b.pdf", two); (str "notes.txt", one); (str "A.PDF", one);
     (str "sub", Folder [(str "deep.pdf", two)]); (str "c.Pdf", two)] in
  process_directory (Folder entries) =
  Ok (flat_map (fun e => match process_pdf (snd e) with Ok rs => rs | Raise _ => [] end)
        [(str "b.pdf", two); (str "A.PDF", one); (str "c.Pdf", two)]).
Proof.
  intros one two entries.
  destruct (process_directory_pdf_entries_in_order entries) as (_ & _ & H & _).
  apply (H (fun e => match process_pdf (snd e) with Ok rs => rs | Raise _ => [] end)).
  intros e He _. simpl in He.
  destruct He as [<- | [<- | [<- | [<- | [<- | []]]]]]; vm_compute; reflexivity.
Defined.

(* ================================================================== *)
(** ** C10: a label on the last line                                  *)
(* ================================================================== *)

(** C10: the name and subject patterns end in a newline.  When the text is
    [earlier ++ final], the final line [final] has no newline and no label
    of the rule occurs in [earlier], the field is the sentinel whatever the
    final line holds. *)
Theorem label_on_last_line_is_not_found (earlier final : text) :
  existsb isnewline final = false ->
  (occurs (str "Oficio Nro.") earlier = false ->
   occurs (str "Memorando Nro.") earlier = false ->
   doc_name (earlier ++ final) = Ok (str "No encontrado")) /\
  (occurs (str "Asunto:") earlier = false ->
   occurs (str "ASUNTO:") earlier = false ->
   subject (earlier ++ final) = Ok (str "No encontrado")).
Proof.
  intros F. split; intros O1 O2; apply extract_field_with_regex_none.
  - destruct (re_search name_pattern (earlier ++ final) no_flags) as [m|] eqn:E;
      [|reflexivity].
    apply name_shape in E as (pre & lab & ws & cap & post & E & Hlab & _).
    rewrite (app_assoc ws) in E. apply label_before_newline in E; [|exact F].
    destruct Hlab as [-> | ->]; congruence.
  - destruct (re_search subject_pattern (earlier ++ final) no_flags) as [m|] eqn:E;
      [|reflexivity].
    apply subject_shape in E as (pre & lab & ws & cap & post & E & Hlab & _).
    rewrite (app_assoc ws) in E. apply label_before_newline in E; [|exact F].
    destruct Hlab as [-> | ->]; congruence.
Qed.

Lemma label_on_last_line_is_not_found_witness :
  doc_name (str "Quito, 15 de marzo de 2021" ++ nl ++ str "Oficio Nro. 2021-007") =
    Ok (str "No encontrado") /\
  subject (str "Quito, 15 de marzo de 2021" ++ nl ++ str "Asunto: Entrega de informe") =
    Ok (str "No encontrado").
Proof.
  split.
  - apply (label_on_last_line_is_not_found
             (str "Quito, 15 de marzo de 2021" ++ nl) (str "Oficio Nro. 2021-007"));
      reflexivity.
  - apply (label_on_last_line_is_not_found
             (str "Quito, 15 de marzo de 2021" ++ nl) (str "Asunto: Entrega de informe"));
      reflexivity.
Defined.

(* ================================================================== *)
(** ** Further properties: trimmed, single-line fields                *)
(* ================================================================== *)

(** X1: whatever the pattern, the value that [extract_field_with_regex]
    returns has no whitespace at either end: stripping it again changes
    nothing.  So it is with the name and the subject of a text. *)
Theorem field_value_is_trimmed (t : text) (pattern : regex) (v : text) :
  extract_field_with_regex t pattern = Ok v ->
  strip v = v /\
  (forall n, doc_name t = Ok n -> strip n = n) /\
  (forall s, subject t = Ok s -> strip s = s).
Proof.
  assert (G : forall r x, extract_field_with_regex t r = Ok x -> strip x = x).
  { intros r x. unfold extract_field_with_regex.
    destruct (re_search r t no_flags) as [m|].
    - destruct (ngroups r); [discriminate|].
      destruct (group m) as [g|]; [|discriminate].
      intros H. injection H as <-. apply strip_idempotent.
    - intros H. injection H as <-. reflexivity. }
  intros H. split; [|split]; eauto.
Qed.

Lemma field_value_is_trimmed_witness :
  strip (str "2021-007") = str "2021-007".
Proof.
  assert (H : extract_field_with_regex (str "Oficio Nro.   2021-007  " ++ nl)
                name_pattern = Ok (str "2021-007")) by reflexivity.
  exact (proj1 (@field_value_is_trimmed _ _ _ H)).
Defined.

(** X2: the name and the subject of a text hold no newline: each is taken
    from one line. *)
Theorem name_and_subject_are_single_line (t : text) :
  (forall n, doc_name t = Ok n -> existsb isnewline n = false) /\
  (forall s, subject t = Ok s -> existsb isnewline s = false).
Proof.
  split; intros v; unfold doc_name, subject, extract_field_with_regex.
  - destruct (re_search name_pattern t no_flags) as [m|] eqn:S.
    + apply name_shape in S as (_ & _ & _ & cap & _ & _ & _ & _ & _ & N & ->).
      intros H. injection H as <-. apply strip_keeps, N.
    + intros H. injection H as <-. reflexivity.
  - destruct (re_search subject_pattern t no_flags) as [m|] eqn:S.
    + apply subject_shape in S as (_ & _ & _ & cap & _ & _ & _ & _ & _ & N & ->).
      intros H. injection H as <-. apply strip_keeps, N.
    + intros H. injection H as <-. reflexivity.
Qed.

Lemma name_and_subject_are_single_line_witness :
  existsb isnewline (str "2021-007") = false /\
  existsb isnewline (str "Entrega") = false.
Proof.
  destruct (name_and_subject_are_single_line
              (str "Oficio Nro." ++ nl ++ str "2021-007" ++ nl ++
               str "Asunto: Entrega" ++ nl ++ str "de informe" ++ nl)) as [H1 H2].
  split; [apply H1 | apply H2]; reflexivity.
Defined.

(* ================================================================== *)
(** ** Further properties: the value of the name and of the subject   *)
(* ================================================================== *)

(** X3.  The name is what follows the first ["Oficio Nro."] or
    ["Memorando Nro."] up to the end of the line, the whitespace at both ends
    left out; whitespace after the label is passed over, line breaks
    included, so the name is read from the first line below the label that
    holds something.  The text after the label must hold a newline after
    its first character that is not whitespace. *)
Theorem name_is_rest_of_label_line (t a : text) :
  after_label (str "Oficio Nro.") (str "Memorando Nro.") t = Some a ->
  existsb isnewline (lstrip a) = true ->
  doc_name t = Ok (strip (take_line (lstrip a))).
Proof.
  intros A N. pose proof (name_search t) as S. rewrite A in S.
  destruct (S N) as (m & M & G).
  unfold doc_name, extract_field_with_regex. rewrite M, G. reflexivity.
Qed.

Lemma name_is_rest_of_label_line_witness :
  doc_name (str "Quito" ++ nl ++ str "Memorando Nro. " ++ nl ++
            str "  MEM-7 " ++ nl ++ str "x") = Ok (str "MEM-7").
Proof.
  apply (@name_is_rest_of_label_line _
           (str " " ++ nl ++ str "  MEM-7 " ++ nl ++ str "x"));
    reflexivity.
Defined.

(** X4.  The subject is what follows the first ["Asunto:"] or ["ASUNTO:"]
    up to the end of the line, the whitespace at both ends left out, under
    the same condition as for the name. *)
Theorem subject_is_rest_of_label_line (t a : text) :
  after_label (str "Asunto:") (str "ASUNTO:") t = Some a ->
  existsb isnewline (lstrip a) = true ->
  subject t = Ok (strip (take_line (lstrip a))).
Proof.
  intros A N. pose proof (subject_search t) as S. rewrite A in S.
  destruct (S N) as (m & M & G).
  unfold subject, extract_field_with_regex. rewrite M, G. reflexivity.
Qed.

Lemma subject_is_rest_of_label_line_witness :
  subject (str "ASUNTO:   Informe anual  " ++ nl ++ str "Asunto: otro" ++ nl) =
  Ok (str "Informe anual").
Proof.
  apply (@subject_is_rest_of_label_line _
           (str "   Informe anual  " ++ nl ++ str "Asunto: otro" ++ nl));
    reflexivity.
Defined.

(** X5.  A text in which neither label of a field begins anywhere gives the
    placeholder for that field: the name without ["Oficio Nro."] and
    ["Memorando Nro."], the subject without ["Asunto:"] and ["ASUNTO:"]. *)
Theorem no_label_gives_placeholder (t : text) :
  (after_label (str "Oficio Nro.") (str "Memorando Nro.") t = None ->
   doc_name t = Ok (str "No encontrado")) /\
  (after_label (str "Asunto:") (str "ASUNTO:") t = None ->
   subject t = Ok (str "No encontrado")).
Proof.
  split; intros A.
  - pose proof (name_search t) as S. rewrite A in S.
    unfold doc_name, extract_field_with_regex. rewrite S. reflexivity.
  - pose proof (subject_search t) as S. rewrite A in S.
    unfold subject, extract_field_with_regex. rewrite S. reflexivity.
Qed.

Lemma no_label_gives_placeholder_witness :
  doc_name (str "OFICIO NRO. 12" ++ nl ++ str "asunto: x" ++ nl) =
    Ok (str "No encontrado") /\
  subject (str "OFICIO NRO. 12" ++ nl ++ str "asunto: x" ++ nl) =
    Ok (str "No encontrado").
Proof.
  destruct (no_label_gives_placeholder
              (str "OFICIO NRO. 12" ++ nl ++ str "asunto: x" ++ nl)) as [N S].
  split; [apply N | apply S]; reflexivity.
Defined.

(* ================================================================== *)
(** ** Further properties: the date that is returned                  *)
(* ================================================================== *)

(** X6.  Whatever the text, a date that [process_pdf] puts in a row is the
    placeholder or has the form D-MM-YYYY: a day of one or two digits as
    written, one of the twelve month numbers of the table, and a year of
    four digits. *)
Theorem date_is_placeholder_or_day_month_year (t v : text) :
  date t = Ok v ->
  v = str "No encontrada" \/
  exists d mm y,
    v = d ++ str "-" ++ mm ++ str "-" ++ y /\
    digits d = true /\ length d <= 2 /\
    In mm (map snd months) /\
    digits y = true /\ length y = 4.
Proof.
  intros D. destruct (re_search date_pattern t no_flags) as [m|] eqn:S.
  - right. destruct (date_value _ S)
      as (d & s1 & s2 & w & s3 & s4 & y & _ & (Hd & Ld) & _ & _ & (Hy & Ly) & V).
    destruct (getitem months (lower w)) as [mm|e] eqn:G.
    + exists d, mm, y. rewrite V in D. injection D as <-.
      repeat split; auto.
      apply getitem_in in G. apply (in_map snd) in G. exact G.
    + destruct V as (key & V). congruence.
  - left. rewrite (date_none _ S) in D. congruence.
Qed.

Lemma date_is_placeholder_or_day_month_year_witness :
  str "3-12-1999" = str "No encontrada" \/
  exists d mm y,
    str "3-12-1999" = d ++ str "-" ++ mm ++ str "-" ++ y /\
    digits d = true /\ length d <= 2 /\
    In mm (map snd months) /\
    digits y = true /\ length y = 4.
Proof.
  apply (@date_is_placeholder_or_day_month_year
           (str "Loja,  3 de Diciembre   de 1999.")).
  vm_compute. reflexivity.
Defined.

(* ================================================================== *)
(** ** Further properties: the annex items                            *)
(* ================================================================== *)

(** Every item that [findall] reports comes from a match of the pattern at
    some position of the text. *)
Lemma findall_from_in (fl : flags) (r : regex) (x : text) :
  forall rs skip sn,
  In x (findall_from fl r skip sn rs) ->
  exists pre post m,
    rs = pre ++ post /\ match_at fl r (rev pre ++ sn) post = Some m /\
    findall_item r m = x.
Proof.
  induction rs as [|a rs IH]; intros skip sn H.
  - destruct skip as [|n]; cbn [findall_from] in H; [|destruct H].
    destruct (match_at fl r sn []) as [m|] eqn:M; [|destruct H].
    destruct H as [H | []]. exists [], [], m. auto.
  - assert (Next : forall n, In x (findall_from fl r n (a :: sn) rs) ->
              exists pre post m,
                a :: rs = pre ++ post /\ match_at fl r (rev pre ++ sn) post = Some m /\
                findall_item r m = x).
    { intros n I. apply IH in I as (pre & post & m & -> & M & F).
      exists (a :: pre), post, m. rewrite rev_cons_app. auto. }
    destruct skip as [|n]; cbn [findall_from] in H; [|eauto].
    destruct (match_at fl r sn (a :: rs)) as [m|] eqn:M; [|eauto].
    destruct H as [H | H]; [|eauto]. exists [], (a :: rs), m. auto.
Qed.

Lemma dot_run_no_newline (w : text) :
  forallb (in_cset re_MULTILINE Dot) w = true -> existsb isnewline w = false.
Proof.
  induction w as [|a w IH]; [reflexivity|]. cbn [forallb existsb in_cset].
  cbn [DOTALL re_MULTILINE orb]. intros H. apply andb_true_iff in H as [Ha H].
  apply negb_true_iff in Ha. rewrite Ha, (IH H). reflexivity.
Qed.

(** What a match of the item pattern looks like. *)
Lemma annex_shape (sn rs : text) (m : match_obj) :
  match_at re_MULTILINE annex_pattern sn rs = Some m ->
  exists ws x post,
    rs = hyphen :: ws ++ x ++ post /\ at_bol re_MULTILINE (Cursor sn rs None) = true /\
    forallb isspace ws = true /\ x <> [] /\ existsb isnewline x = false /\
    stops not_newline post = true /\ findall_item annex_pattern m = x.
Proof.
  unfold match_at. intros H.
  destruct (mtch re_MULTILINE annex_pattern (fun c' => Some c') (Cursor sn rs None))
    as [c'|] eqn:E; [|discriminate].
  injection H as <-. apply mtch_sound in E as (c & M & K). injection K as ->.
  destruct M as (c1 & (B & ->) & c2 & ((R2 & _) & _) & c3 &
                 (ws & (R3 & _) & _ & Hws & _) & c4 &
                 (c5 & (x & (R5 & _) & _ & Hx & Lx & _) & ->) & (Z & ->)).
  cbn [rest] in R2. exists ws, x, (rest c5).
  unfold findall_item, group. cbn [ngroups annex_pattern plus m_end capture group1].
  rewrite (@span_app _ _ _ R5), R2, R3, R5.
  repeat split; auto.
  - destruct x; [simpl in Lx; lia | discriminate].
  - apply dot_run_no_newline, Hx.
  - unfold at_eol in Z. cbn [capture rest] in Z.
    destruct (rest c5) as [|a post]; [reflexivity|]. cbn [stops].
    apply andb_true_iff in Z as [Z _]. unfold not_newline. rewrite Z. reflexivity.
Qed.

Lemma at_bol_line_start (pre post : text) :
  at_bol re_MULTILINE (Cursor (rev pre ++ []) post None) = true ->
  pre = [] \/ endswith nl pre = true.
Proof.
  rewrite app_nil_r. unfold at_bol, endswith. cbn [seen MULTILINE re_MULTILINE andb].
  destruct (rev pre) as [|a s] eqn:E.
  - intros _. left. apply (f_equal (@rev ascii)) in E.
    rewrite rev_involutive in E. exact E.
  - intros H. right. change (rev nl) with [newline]. cbn [startswith].
    rewrite andb_true_r. unfold isnewline in H. rewrite Ascii.eqb_sym. exact H.
Qed.

(** X7.  Every annex item is non-empty, holds no newline and runs to the
    end of its line.  Before it, in the annex section (the text after the
    label ["Anexos:"] and the whitespace that follows it, up to the first
    blank line), stands a hyphen that begins a line, with nothing but
    whitespace between the hyphen and the item.  That whitespace may hold
    newlines: when only whitespace follows a hyphen on its line, the item is
    taken from a later line, as ["foo"] is in the section that reads a
    hyphen, a newline and ["foo"]. *)
Theorem annex_item_follows_a_line_hyphen (t : text) :
  (forall anx x, annexes t = Ok anx -> In x anx ->
     x <> [] /\ existsb isnewline x = false /\
     exists a pre ws post,
       after_first (str "Anexos:") t = Some a /\
       upto_blank (lstrip a) = pre ++ hyphen :: ws ++ x ++ post /\
       (pre = [] \/ endswith nl pre = true) /\
       forallb isspace ws = true /\ stops not_newline post = true) /\
  annexes (str "Anexos:" ++ nl ++ str "-" ++ nl ++ str "foo") = Ok [str "foo"].
Proof.
  split; [|reflexivity]. intros anx x. rewrite annexes_eq.
  destruct (after_first (str "Anexos:") t) as [a|]; intros H I; injection H as <-;
    [|destruct I].
  unfold re_findall in I. apply findall_from_in in I as (pre & rs & m & E & M & F).
  apply annex_shape in M as (ws & x' & post & -> & B & Hws & Hne & Hnl & Hp & F').
  rewrite F in F'. subst x'.
  split; [exact Hne|]. split; [exact Hnl|]. exists a, pre, ws, post.
  apply at_bol_line_start in B. auto.
Qed.

Lemma annex_item_follows_a_line_hyphen_witness :
  str "acta  firmada" <> [] /\ existsb isnewline (str "acta  firmada") = false.
Proof.
  destruct (annex_item_follows_a_line_hyphen
              (str "Anexos: " ++ nl ++ str "-  acta  firmada" ++ nl ++ str "- foto" ++
               nl ++ nl ++ str "- fuera" ++ nl)) as [H _].
  destruct (H [str "acta  firmada"; str "foto"] (str "acta  firmada")
              ltac:(vm_compute; reflexivity) ltac:(left; reflexivity)) as (H1 & H2 & _).
  split; [exact H1 | exact H2].
Defined.

(* ================================================================== *)
(** ** Further properties: the references that are returned           *)
(* ================================================================== *)

Lemma take_line_no_newline (s : text) : existsb isnewline (take_line s) = false.
Proof.
  unfold take_line. induction s as [|a s IH]; [reflexivity|]. cbn [take_until].
  rewrite startswith_nl. destruct (isnewline a) eqn:E; [reflexivity|].
  cbn [existsb]. rewrite E. exact IH.
Qed.

(** The pieces of a split hold only characters of the text. *)
Lemma split_from_keeps (p : ascii -> bool) (sep : text) :
  forall s skip piece x,
  existsb p piece = false -> existsb p s = false ->
  In x (split_from sep skip piece s) -> existsb p x = false.
Proof.
  induction s as [|a s IH]; intros skip piece x Hp Hs I.
  - destruct skip; cbn [split_from In] in I; destruct I as [<- | []];
      rewrite existsb_rev; exact Hp.
  - cbn [existsb] in Hs. apply orb_false_iff in Hs as [Ha Hs].
    destruct skip as [|n]; cbn [split_from] in I; [|eauto].
    destruct (startswith sep (a :: s)).
    + destruct I as [<- | I]; [rewrite existsb_rev; exact Hp|].
      apply (IH _ [] x) in I; auto.
    + apply (IH 0 (a :: piece)); auto. cbn [existsb]. rewrite Ha. exact Hp.
Qed.

Lemma join_keeps (p : ascii -> bool) (sep : text) (l : list text) :
  existsb p sep = false -> (forall x, In x l -> existsb p x = false) ->
  existsb p (join sep l) = false.
Proof.
  intros Hsep. induction l as [|x l IH]; intros H; [reflexivity|].
  assert (Hx : existsb p x = false) by (apply H; left; reflexivity).
  destruct l as [|y l]; [exact Hx|].
  change (join sep (x :: y :: l)) with (x ++ sep ++ join sep (y :: l)).
  rewrite !existsb_app, Hx, Hsep, IH; [reflexivity|].
  intros z Hz. apply H. right. exact Hz.
Qed.

Lemma join_nonempty (sep x : text) (l : list text) :
  x <> [] -> join sep (x :: l) <> [].
Proof.
  intros Hx. destruct l as [|y l]; [exact Hx|].
  change (join sep (x :: y :: l)) with (x ++ sep ++ join sep (y :: l)).
  destruct x; [congruence | discriminate].
Qed.

(** The pieces of a reference list: non-empty, trimmed, and of the
    characters of the captured text. *)
Lemma reference_list_pieces (p : ascii -> bool) (s x : text) :
  existsb p s = false -> In x (reference_list s) ->
  x <> [] /\ strip x = x /\ existsb p x = false.
Proof.
  intros Hs I. unfold reference_list in I. apply filter_In in I as [I N].
  apply in_map_iff in I as (y & <- & I). split; [|split].
  - destruct (strip y); [discriminate | congruence].
  - apply strip_idempotent.
  - apply strip_keeps. apply (@split_from_keeps p (str "- ") s 0 [] y); auto.
Qed.

(** X8.  The references field is the placeholder, or a list of one or more
    pieces joined with [", "]; each piece is non-empty, has no whitespace at
    either end, and holds no newline, so the field is a single line however
    the text is laid out. *)
Theorem references_are_joined_pieces (t r : text) :
  references t = Ok r ->
  r = str "No encontradas" \/
  exists x l,
    r = join (str ", ") (x :: l) /\
    forall y, In y (x :: l) ->
      y <> [] /\ strip y = y /\ existsb isnewline y = false.
Proof.
  rewrite references_eq. intros H. injection H as <-.
  destruct (after_first _ t) as [a|]; [|left; reflexivity].
  destruct (reference_list (take_line (lstrip a))) as [|x l] eqn:L;
    [left; reflexivity|].
  right. exists x, l. split; [reflexivity|]. intros y I. rewrite <- L in I.
  apply (@reference_list_pieces isnewline _ _ (take_line_no_newline _) I).
Qed.

Lemma references_are_joined_pieces_witness :
  str "Of. 12, Memo 7" = str "No encontradas" \/
  exists x l,
    str "Of. 12, Memo 7" = join (str ", ") (x :: l) /\
    forall y, In y (x :: l) ->
      y <> [] /\ strip y = y /\ existsb isnewline y = false.
Proof.
  apply (@references_are_joined_pieces
           (str "Referencias:" ++ nl ++ str " - Of. 12  - Memo 7 - " ++ nl ++ str "x")).
  vm_compute. reflexivity.
Defined.

(* ================================================================== *)
(** ** Further properties: the cells of a row                         *)
(* ================================================================== *)

Lemma digit_not_newline : forall a, isdigit a = true -> isnewline a = false.
Proof. each_char. Qed.

Lemma digits_no_newline (s : text) :
  forallb isdigit s = true -> existsb isnewline s = false.
Proof.
  induction s as [|a s IH]; [reflexivity|]. cbn [forallb existsb]. intros H.
  apply andb_true_iff in H as [Ha H]. rewrite (digit_not_newline _ Ha), (IH H).
  reflexivity.
Qed.

Lemma line_field_one_line (t : text) (r : regex) (v : text) :
  (forall m, re_search r t no_flags = Some m ->
     exists cap, existsb isnewline cap = false /\ group m = Some cap) ->
  extract_field_with_regex t r = Ok v -> existsb isnewline v = false.
Proof.
  intros Shape. unfold extract_field_with_regex.
  destruct (re_search r t no_flags) as [m|].
  - destruct (Shape m eq_refl) as (cap & N & ->).
    destruct (ngroups r); [discriminate|]. intros H. injection H as <-.
    apply strip_keeps, N.
  - intros H. injection H as <-. reflexivity.
Qed.

Lemma date_one_line (t v : text) :
  date t = Ok v -> v <> [] /\ existsb isnewline v = false.
Proof.
  intros D. destruct (re_search date_pattern t no_flags) as [m|] eqn:S.
  - destruct (date_value _ S)
      as (d & s1 & s2 & w & s3 & s4 & y & _ & (Hd & _) & _ & _ & (Hy & _) & V).
    destruct (getitem months (lower w)) as [mm|e] eqn:G;
      [|destruct V as (key & V); congruence].
    rewrite V in D. injection D as <-.
    apply getitem_in, months_entries in G as (_ & Hm & _).
    apply andb_true_iff in Hd as [Nd Hd]. apply andb_true_iff in Hy as [_ Hy].
    split.
    + destruct d; [discriminate | discriminate].
    + rewrite existsb_app. cbn [existsb]. rewrite existsb_app. cbn [existsb].
      rewrite (digits_no_newline _ Hd), (digits_no_newline _ Hm),
        (digits_no_newline _ Hy). reflexivity.
  - rewrite (date_none _ S) in D. injection D as <-. split; [discriminate | reflexivity].
Qed.

Lemma references_one_line (t r : text) :
  references t = Ok r -> r <> [] /\ existsb isnewline r = false.
Proof.
  rewrite references_eq. intros H. injection H as <-.
  destruct (after_first _ t) as [a|]; [|split; [discriminate | reflexivity]].
  destruct (reference_list (take_line (lstrip a))) as [|x l] eqn:L;
    [split; [discriminate | reflexivity]|].
  assert (P : forall y, In y (x :: l) ->
            y <> [] /\ strip y = y /\ existsb isnewline y = false).
  { intros y I. rewrite <- L in I.
    apply (@reference_list_pieces isnewline _ _ (take_line_no_newline _) I). }
  split.
  - change (join (str ", ") (x :: l) <> []).
    apply join_nonempty. apply (P x). left. reflexivity.
  - change (existsb isnewline (join (str ", ") (x :: l)) = false).
    apply join_keeps; [reflexivity|]. intros y I. apply (P y I).
Qed.

Lemma annex_one_line (t : text) (anx : list text) (x : text) :
  annexes t = Ok anx -> In x anx -> x <> [] /\ existsb isnewline x = false.
Proof.
  rewrite annexes_eq.
  destruct (after_first (str "Anexos:") t) as [a|]; intros H I; injection H as <-;
    [|destruct I].
  unfold re_findall in I. apply findall_from_in in I as (pre & rs & m & _ & M & F).
  apply annex_shape in M as (ws & x' & post & _ & _ & _ & Hne & Hnl & _ & F').
  rewrite F in F'. subst x'. auto.
Qed.

Lemma rows_anexo (n d s r : text) (anx : list text) (x : row) :
  In x (rows n d s r anx) -> Anexo x = str "No encontrado" \/ In (Anexo x) anx.
Proof.
  intros I. apply (in_map Anexo) in I. rewrite rows_annexes in I.
  destruct anx as [|a anx]; [|right; exact I].
  destruct I as [<- | []]. left. reflexivity.
Qed.

(** X9.  In every row that [process_pdf] returns, no cell holds the
    newline character U+000A, and the date, annex and references cells are
    never empty.  Other characters that break a line are not kept out: [.]
    excludes U+000A only and an annex item is not trimmed, so an item can end
    in a carriage return. *)
Theorem cells_hold_no_newline (pdf_path : node) :
  (forall rs x, process_pdf pdf_path = Ok rs -> In x rs ->
     (forall f, existsb isnewline (value f x) = false) /\
     Fecha x <> [] /\ Anexo x <> [] /\ Referencias x <> []) /\
  annexes (str "Anexos:" ++ nl ++ str "- a" ++ [carriage_return]) =
    Ok [str "a" ++ [carriage_return]].
Proof.
  split; [|reflexivity]. intros rs x.
  unfold process_pdf. destruct (extract_text_from_pdf pdf_path) as [|c t0] eqn:T.
  { intros H. injection H as <-. intros []. }
  remember (c :: t0) as t eqn:Ht. clear Ht T. intros E I.
  apply extract_ok_inv in E as (n & d & s & r & a & Hn & Hd & Hs & Hr & Ha & ->).
  destruct (rows_fields _ _ _ _ _ _ I) as (En & Ed & Es & Er). subst n d s r.
  apply date_one_line in Hd as [Hd1 Hd2].
  apply references_one_line in Hr as [Hr1 Hr2].
  assert (Hx : Anexo x <> [] /\ existsb isnewline (Anexo x) = false).
  { apply rows_anexo in I as [-> | I]; [split; [discriminate | reflexivity]|].
    apply (@annex_one_line _ _ _ Ha I). }
  destruct Hx as [Hx1 Hx2]. repeat split; auto.
  intros [| | | |]; cbn [value]; auto.
  - apply (@line_field_one_line t name_pattern); [|exact Hn].
    intros m S. apply name_shape in S as (_ & _ & _ & cap & _ & _ & _ & _ & _ & N & G).
    eauto.
  - apply (@line_field_one_line t subject_pattern); [|exact Hs].
    intros m S. apply subject_shape in S as (_ & _ & _ & cap & _ & _ & _ & _ & _ & N & G).
    eauto.
Qed.

Lemma cells_hold_no_newline_witness :
  let x := Row (str "7") (str "1-05-2020") (str "Entrega") (str "acta")
             (str "Of. 1, Of. 2") in
  (forall f, existsb isnewline (value f x) = false) /\
  Fecha x <> [] /\ Anexo x <> [] /\ Referencias x <> [].
Proof.
  intros x.
  destruct (cells_hold_no_newline
              (File (Pages [Some (str "Memorando Nro. 7" ++ nl ++ str "Quito, 1 de mayo");
                            Some (nl ++ str "de 2020" ++ nl ++ str "ASUNTO: Entrega" ++
                                  nl ++ str "Referencias: Of. 1 - Of. 2" ++ nl ++
                                  str "Anexos:" ++ nl ++ str "- acta" ++ nl)])))
    as [H _].
  apply (H [x]).
  - vm_compute. reflexivity.
  - left. reflexivity.
Defined.

(* ================================================================== *)
(** ** Further properties: the settings, and the directory loop       *)
(* ================================================================== *)

Lemma process_directory_raises (d : node) (e : exn) :
  process_directory d = Raise e ->
  e = NotADirectoryError \/ exists key, e = KeyError key.
Proof.
  destruct d as [c|entries]; cbn [process_directory].
  - intros H. injection H as <-. left. reflexivity.
  - intros H. right. apply (process_entries_raises _ H).
Qed.

(** How [verify_environment_variables] ends, by which settings are there. *)
Lemma verify_cases (env : environ) :
  verify_environment_variables env =
  match env (str "SERVER_ROUTE"), env (str "DOWNLOAD_ROUTE") with
  | Some _, Some _ => Ok tt
  | None, Some _ =>
      Raise (EnvironmentError
               (str "Faltan las siguientes variables de entorno: SERVER_ROUTE"))
  | Some _, None =>
      Raise (EnvironmentError
               (str "Faltan las siguientes variables de entorno: DOWNLOAD_ROUTE"))
  | None, None =>
      Raise (EnvironmentError
               (str "Faltan las siguientes variables de entorno: SERVER_ROUTE, DOWNLOAD_ROUTE"))
  end.
Proof.
  unfold verify_environment_variables, required_vars, is_missing, env_str.
  cbn [filter].
  destruct (env (str "SERVER_ROUTE")), (env (str "DOWNLOAD_ROUTE")); reflexivity.
Qed.

(** X11.  [verify_environment_variables] succeeds exactly when both
    settings are there; when it fails its message names a setting exactly
    when that setting is missing; and although the start-up never calls it,
    it fails exactly when the start-up stops with an [EnvError]. *)
Theorem verify_names_the_missing_settings (env : environ) (disk : text -> option node) :
  (verify_environment_variables env = Ok tt <->
   forall var, In var required_vars -> env var <> None) /\
  (forall msg var,
     verify_environment_variables env = Raise (EnvironmentError msg) ->
     In var required_vars -> (occurs var msg = true <-> env var = None)) /\
  ((exists e, verify_environment_variables env = Raise e) <->
   exists var, snd (main env disk) = Raise (EnvError var)).
Proof.
  rewrite verify_cases. unfold main, env_str, required_vars.
  destruct (env (str "SERVER_ROUTE")) as [directory|] eqn:E1;
    destruct (env (str "DOWNLOAD_ROUTE")) as [download|] eqn:E2;
    (split; [|split]).
  - split; [|reflexivity]. intros _ var [<- | [<- | []]]; congruence.
  - discriminate.
  - split; [intros (e & H); discriminate|]. intros (var & H). exfalso.
    destruct (disk directory) as [d|]; [|discriminate].
    destruct (process_directory d) as [df|e] eqn:P; [discriminate|].
    cbn [snd] in H. injection H as ->.
    apply process_directory_raises in P as [P | (key & P)]; discriminate.
  - split; [discriminate|]. intros H. exfalso.
    apply (H (str "DOWNLOAD_ROUTE")); [right; left; reflexivity | exact E2].
  - intros msg var H [<- | [<- | []]]; injection H as <-; rewrite ?E1, ?E2;
      split; try reflexivity; discriminate.
  - split; intros _; eexists; reflexivity.
  - split; [discriminate|]. intros H. exfalso.
    apply (H (str "SERVER_ROUTE")); [left; reflexivity | exact E1].
  - intros msg var H [<- | [<- | []]]; injection H as <-; rewrite ?E1, ?E2;
      split; try reflexivity; discriminate.
  - split; intros _; eexists; reflexivity.
  - split; [discriminate|]. intros H. exfalso.
    apply (H (str "SERVER_ROUTE")); [left; reflexivity | exact E1].
  - intros msg var H [<- | [<- | []]]; injection H as <-; rewrite ?E1, ?E2;
      split; reflexivity.
  - split; intros _; eexists; reflexivity.
Qed.

Lemma verify_names_the_missing_settings_witness :
  let env := fun var => if text_eqb var (str "SERVER_ROUTE") then Some (str "/in") else None in
  occurs (str "DOWNLOAD_ROUTE")
    (str "Faltan las siguientes variables de entorno: DOWNLOAD_ROUTE") = true /\
  (occurs (str "SERVER_ROUTE")
     (str "Faltan las siguientes variables de entorno: DOWNLOAD_ROUTE") = true <->
   env (str "SERVER_ROUTE") = None).
Proof.
  intros env.
  destruct (verify_names_the_missing_settings env (fun _ => None)) as (_ & H & _).
  split.
  - apply (H _ (str "DOWNLOAD_ROUTE")); [reflexivity | right; left; reflexivity |].
    reflexivity.
  - apply (H _ (str "SERVER_ROUTE")); [reflexivity | left; reflexivity].
Defined.




(* ================================================================== *)
(** ** Further properties: where the date is found                    *)
(* ================================================================== *)

(** A greedy class with an upper bound that can run over all of [w], and
    must stop there because the bound is reached or the class ends. *)
Lemma rep_greedy_scan_bounded (A : Type) (p : ascii -> bool)
    (k : cursor -> option A) (g : option text) (x : A) (rs : text) :
  forall (w sn : text) (lo h : nat),
  forallb p w = true -> lo <= length w -> length w <= h ->
  length w = h \/ stops p rs = true ->
  k (Cursor (rev w ++ sn) rs g) = Some x ->
  rep p true lo (Some h) k sn (w ++ rs) g = Some x.
Proof.
  induction w as [|a w IH]; intros sn lo h Hw Hlo Hh Hs Hk; rewrite rep_eq; cbv zeta.
  - cbn [length] in *. replace lo with 0 by lia. cbn [app rev] in *.
    destruct h as [|h]; [exact Hk|]. cbn [hi_zero].
    destruct Hs as [Hs | Hs]; [discriminate|].
    destruct rs as [|b rs]; [exact Hk|]. cbn [stops] in Hs.
    apply negb_true_iff in Hs. rewrite Hs. exact Hk.
  - cbn [forallb] in Hw. apply andb_true_iff in Hw as [Ha Hw].
    cbn [length] in *. destruct h as [|h]; [lia|]. cbn [hi_zero app].
    rewrite Ha. rewrite rev_cons_app in Hk.
    assert (E : rep p true (pred lo) (option_map pred (Some (S h))) k (a :: sn)
                  (w ++ rs) g = Some x).
    { cbn [option_map pred]. apply IH; auto; try lia.
      destruct Hs as [Hs | Hs]; [left; lia | right; exact Hs]. }
    rewrite E. destruct lo; reflexivity.
Qed.

Lemma run_all (p : ascii -> bool) (s : text) :
  nonempty s && forallb p s = true -> forallb p s = true /\ 1 <= length s.
Proof.
  intros H. apply andb_true_iff in H as [N H]. split; [exact H|].
  destruct s; [discriminate | simpl; lia].
Qed.

Lemma run_stops (p q : ascii -> bool) (s rs : text) :
  (forall a, q a = true -> p a = false) ->
  nonempty s && forallb q s = true -> stops p (s ++ rs) = true.
Proof.
  intros Hp H. apply run_inv in H as (a & s' & -> & Ha & _).
  cbn [app stops]. rewrite (Hp a Ha). reflexivity.
Qed.

Lemma word_not_space (a : ascii) : isword a = true -> isspace a = false.
Proof.
  intros H. destruct (isspace a) eqn:S; [|reflexivity].
  rewrite (space_not_word _ S) in H. discriminate.
Qed.

(** The date pattern matches a date text where it stands. *)
Lemma date_match_here (sn d s1 s2 w s3 s4 y post : text) :
  digits d = true -> length d <= 2 -> spaces s1 = true -> spaces s2 = true ->
  word w = true -> spaces s3 = true -> spaces s4 = true ->
  digits y = true -> length y = 4 ->
  exists m,
    match_at no_flags date_pattern sn (date_text d s1 s2 w s3 s4 y ++ post) = Some m /\
    group m = Some (date_text d s1 s2 w s3 s4 y).
Proof.
  intros Hd Ld H1 H2 Hw H3 H4 Hy Ly.
  destruct (run_all _ _ Hd) as [Ad Nd]. destruct (run_all _ _ H1) as [A1 N1].
  destruct (run_all _ _ H2) as [A2 N2]. destruct (run_all _ _ Hw) as [Aw Nw].
  destruct (run_all _ _ H3) as [A3 N3]. destruct (run_all _ _ H4) as [A4 N4].
  destruct (run_all _ _ Hy) as [Ay Ny].
  set (c := Cursor sn (date_text d s1 s2 w s3 s4 y ++ post) None).
  assert (M : exists c', rest c' = post /\
            mtch no_flags date_pattern (fun c' => Some c') c = Some (capture c c')).
  { eexists (Cursor _ post None). split; [reflexivity|].
    unfold date_pattern, c, date_text. rewrite <- !app_assoc.
    cbn [mtch seen rest group1].
    apply rep_greedy_scan_bounded; auto.
    { right. apply (@run_stops _ _ _ _ space_not_digit H1). }
    cbn [mtch seen rest group1].
    apply rep_greedy_scan; auto.
    rewrite eat_spec. cbn [seen rest group1].
    rewrite startswith_app, skipn_length_app.
    apply rep_greedy_scan; auto.
    { apply (@run_stops _ _ _ _ word_not_space Hw). }
    apply rep_greedy_scan; auto.
    { apply (@run_stops _ _ _ _ space_not_word H3). }
    apply rep_greedy_scan; auto.
    rewrite eat_spec. cbn [seen rest group1].
    rewrite startswith_app, skipn_length_app.
    apply rep_greedy_scan; auto.
    { apply (@run_stops _ _ _ _ digit_not_space Hy). }
    apply rep_greedy_scan_bounded; auto; lia. }
  destruct M as (c' & R & M). unfold match_at. fold c. rewrite M.
  eexists. split; [reflexivity|]. unfold group. cbn [m_end capture group1].
  f_equal. apply span_app. rewrite R. reflexivity.
Qed.

(** The first date text that no digit precedes is the one found. *)
Lemma date_search_first (pre d s1 s2 w s3 s4 y post : text) :
  existsb isdigit pre = false ->
  digits d = true -> length d <= 2 -> spaces s1 = true -> spaces s2 = true ->
  word w = true -> spaces s3 = true -> spaces s4 = true ->
  digits y = true -> length y = 4 ->
  exists m,
    re_search date_pattern (pre ++ date_text d s1 s2 w s3 s4 y ++ post) no_flags =
      Some m /\
    group m = Some (date_text d s1 s2 w s3 s4 y).
Proof.
  intros Hp Hd Ld H1 H2 Hw H3 H4 Hy Ly. unfold re_search. generalize (@nil ascii).
  induction pre as [|a pre IH]; intros sn.
  - cbn [app].
    destruct (@date_match_here sn d s1 s2 w s3 s4 y post) as (m & M & G); auto.
    exists m. split; [|exact G].
    destruct (date_text d s1 s2 w s3 s4 y ++ post); cbn [search_from]; rewrite M;
      reflexivity.
  - cbn [existsb] in Hp. apply orb_false_iff in Hp as [Ha Hp].
    cbn [app search_from]. rewrite date_no_match_here; [apply IH; exact Hp|].
    cbn [stops]. rewrite Ha. reflexivity.
Qed.

(** X13.  The date rule takes the first date of the text: when no digit
    comes before a day of one or two digits, ["de"], a word that names a
    month in any mix of cases, ["de"] and four digits, separated by
    whitespace of any kind, the date field is day, month number and year
    joined by hyphens, whatever follows.  A text with no digit at all gives
    the placeholder. *)
Theorem first_date_is_found (pre d s1 s2 w s3 s4 y post mm : text) :
  existsb isdigit pre = false ->
  digits d = true -> length d <= 2 -> spaces s1 = true -> spaces s2 = true ->
  spaces s3 = true -> spaces s4 = true -> digits y = true -> length y = 4 ->
  getitem months (lower w) = Ok mm ->
  date (pre ++ date_text d s1 s2 w s3 s4 y ++ post) =
    Ok (d ++ str "-" ++ mm ++ str "-" ++ y) /\
  date pre = Ok (str "No encontrada").
Proof.
  intros Hp Hd Ld H1 H2 H3 H4 Hy Ly M.
  destruct (month_word _ M) as (Hw & _).
  split; [|apply date_none, date_search_no_digit, Hp].
  destruct (@date_search_first pre d s1 s2 w s3 s4 y post) as (m & S & G); auto.
  pose proof (@date_on_date_text _ m d s1 s2 w s3 s4 y S G Hd H1 H2 Hw H3 H4 Hy) as V.
  rewrite M in V. exact V.
Qed.

Lemma first_date_is_found_witness :
  date (str "Quito, " ++
        date_text (str "9") (str " ") nl (str "Agosto") (str "  ") (str " ")
          (str "2019") ++ str "0 y 10 de mayo de 2020") =
    Ok (str "9-08-2019").
Proof.
  apply (@first_date_is_found (str "Quito, ") (str "9") (str " ") nl (str "Agosto")
           (str "  ") (str " ") (str "2019") (str "0 y 10 de mayo de 2020")
           (str "08")); try reflexivity.
  cbn. lia.
Defined.

(* ================================================================== *)
(** ** Further properties: a document outside the template            *)
(* ================================================================== *)

(** X14.  A PDF whose text is not empty, holds none of the labels and no
    digit gives exactly one row, with the placeholder in every column. *)
Theorem unlabelled_text_gives_one_placeholder_row (pdf_path : node) (t : text) :
  extract_text_from_pdf pdf_path = t -> t <> [] ->
  after_label (str "Oficio Nro.") (str "Memorando Nro.") t = None ->
  after_label (str "Asunto:") (str "ASUNTO:") t = None ->
  after_first (str "Referencias:") t = None ->
  after_first (str "Anexos:") t = None ->
  existsb isdigit t = false ->
  process_pdf pdf_path =
  Ok [Row (str "No encontrado") (str "No encontrada") (str "No encontrado")
        (str "No encontrado") (str "No encontradas")].
Proof.
  intros T Ht N S R A D. unfold process_pdf. rewrite T.
  destruct t as [|c t0]; [congruence|]. remember (c :: t0) as t eqn:E. clear E.
  unfold extract.
  pose proof (name_search t) as Hn. rewrite N in Hn.
  pose proof (subject_search t) as Hs. rewrite S in Hs.
  unfold doc_name, subject, extract_field_with_regex. rewrite Hn, Hs.
  rewrite (date_none _ (date_search_no_digit _ D)), references_eq, annexes_eq, R, A.
  reflexivity.
Qed.

Lemma unlabelled_text_gives_one_placeholder_row_witness :
  process_pdf (File (Pages [Some (str "Acta de entrega" ++ nl); Some (str "asunto: x")])) =
  Ok [Row (str "No encontrado") (str "No encontrada") (str "No encontrado")
        (str "No encontrado") (str "No encontradas")].
Proof.
  apply (@unlabelled_text_gives_one_placeholder_row _
           (str "Acta de entrega" ++ nl ++ str "asunto: x"));
    try reflexivity.
  discriminate.
Defined.
